(** * Discovery strategies and index client of the MCP gateway

    A shallow embedding of the keyword strategy, the embedding strategy
    (tool and server discovery with reconciliation of search hits) and the
    teardown of the vector index client, together with the properties that
    the design document states about them.

    Source files embedded here:
    - [pkg/gateway] [keywordStrategy], [embeddingStrategy],
      [findServersByEmbedding], [findToolsByEmbedding],
      [createFindToolsTool];
    - [pkg/gateway/embeddings/client.go] [CallTool], [SearchVectors],
      [Close]. *)

From Stdlib Require Import ZArith.
From stdpp Require Import gmap strings list sorting pretty.

Local Open Scope string_scope.
Local Open Scope Z_scope.
Local Open Scope list_scope.

(** ** Go values *)

(** Go's [float64], by its 64 bits (IEEE 754 binary64). The code stores
    and forwards such values and never computes with them. *)
Definition float64 : Type := Z.

(** A value of Go's [any] as [encoding/json] produces it. *)
#[warnings="-register-all"]
Inductive any : Type :=
| ANil
| ABool (b : bool)
| AFloat (f : float64)
| AString (s : string)
| ASlice (l : list any)
| AMap (m : gmap string any).

(** Go's [error], by its message [err.Error()]. *)
Definition error := string.

(** [fmt.Errorf("prefix: %w", err)]. *)
Definition wrap (prefix : string) (err : error) : error := prefix +:+ ": " +:+ err.

(** How a Go call ends: [(v, nil)], [(nil, err)], or a run-time panic
    (index out of range). *)
Inductive outcome (A : Type) : Type :=
| Returned (v : A)
| Failed (err : error)
| Panic.

Arguments Returned {A} v.
Arguments Failed {A} err.
Arguments Panic {A}.

(** ** Strings *)

(** [strings.HasPrefix]. *)
Fixpoint HasPrefix (s p : string) : bool :=
  match p, s with
  | EmptyString, _ => true
  | String _ _, EmptyString => false
  | String b p', String a s' => if Ascii.eqb a b then HasPrefix s' p' else false
  end.

(** [strings.Contains s substr]: [substr] occurs somewhere in [s]. *)
Fixpoint Contains (s substr : string) : bool :=
  HasPrefix s substr ||
  match s with
  | EmptyString => false
  | String _ s' => Contains s' substr
  end.

(** [s == t] on Go strings. *)
Definition streq (s t : string) : bool := bool_decide (s = t).

(** ASCII instances of [strings.ToLower] and [strings.TrimSpace], used to
    evaluate the model on concrete catalogs. The theorems hold for any
    lowering and trimming functions. *)
Definition lower_ascii (a : Ascii.ascii) : Ascii.ascii :=
  let n := Ascii.nat_of_ascii a in
  if ((65 <=? n)%nat && (n <=? 90)%nat)%bool then Ascii.ascii_of_nat (n + 32) else a.

Fixpoint asciiToLower (s : string) : string :=
  match s with
  | EmptyString => EmptyString
  | String a s' => String (lower_ascii a) (asciiToLower s')
  end.

Definition is_space (a : Ascii.ascii) : bool :=
  let n := Ascii.nat_of_ascii a in
  ((n =? 32)%nat || ((9 <=? n)%nat && (n <=? 13)%nat))%bool.

Fixpoint trim_left (s : string) : string :=
  match s with
  | EmptyString => EmptyString
  | String a s' => if is_space a then trim_left s' else s
  end.

Fixpoint trim_right (s : string) : string :=
  match s with
  | EmptyString => EmptyString
  | String a s' =>
      match trim_right s' with
      | EmptyString => if is_space a then EmptyString else String a EmptyString
      | t => String a t
      end
  end.

Definition asciiTrimSpace (s : string) : string := trim_right (trim_left s).

(** Membership of an element in a list that is written out. *)
Ltac in_table := repeat first [left | right].

(** ** Catalog and registry (read-only inputs) *)

(** [catalog.Tool], the fields the discovery code reads. *)
Record Tool := mkTool {
  tool_Name : string;
  tool_Description : string;
}.

(** [catalog.Secret]. *)
Record Secret := mkSecret {
  secret_Name : string;
}.

(** [catalog.Server], the fields the discovery code reads. *)
Record Server := mkServer {
  Title : string;
  Description : string;
  Image : string;
  Tools : list Tool;
  Secrets : list Secret;
  Config : list any;
  LongLived : bool;
}.

(** [catalog.ServerConfig], as returned by [Configuration.Find]. *)
Record ServerConfig := mkServerConfig {
  Spec : Server;
}.

(** [Configuration]. [servers] is the Go map [configuration.servers] given
    as the sequence in which [range] yields its entries in the call at hand
    (Go fixes no order). [Find] is [Configuration.Find]; its body is not
    among the sources, so it is a parameter of the model: the lookup of a
    server by name (findInCatalog in section 6 of the design document),
    [None] when the server is not found. *)
Record Configuration := mkConfiguration {
  servers : list (string * Server);
  Find : string -> option ServerConfig;
}.

(** [jsonschema.Schema], the fields set by the discovery code. *)
#[warnings="-register-all"]
Inductive Schema : Type :=
| mkSchema (schema_Type : string) (schema_Description : string)
           (Properties : gmap string Schema) (Required : list string).

Definition schema_properties (s : Schema) : gmap string Schema :=
  match s with mkSchema _ _ props _ => props end.

Definition schema_required (s : Schema) : list string :=
  match s with mkSchema _ _ _ req => req end.

(** [mcp.Tool] as published in a registration. *)
Record McpTool := mkMcpTool {
  mcp_Name : string;
  mcp_Description : string;
  mcp_InputSchema : option Schema;
}.

(** [ToolRegistration], the fields that discovery reads. *)
Record ToolRegistration := mkToolRegistration {
  ServerName : string;
  reg_Tool : McpTool;
}.

(** ** Index client data *)

(** [embeddings.SearchOptions]. *)
Record SearchOptions := mkSearchOptions {
  CollectionName : string;
  ExcludeCollections : list string;
  opt_Limit : Z;
}.

(** [embeddings.SearchArgs], the argument of the [search] tool call. *)
Record SearchArgs := mkSearchArgs {
  Vector : list float64;
  args_CollectionName : string;
  args_ExcludeCollections : list string;
  args_Limit : Z;
}.

(** [embeddings.SearchResult]. *)
Record SearchResult := mkSearchResult {
  ID : Z;
  Collection : string;
  Distance : float64;
  Metadata : gmap string any;
  VectorLength : Z;
}.

(** [mcp.Content]: a text content or one of the other kinds. *)
Inductive Content : Type :=
| TextContent (text : string)
| OtherContent.

(** [mcp.CallToolResult] as the index service answers. *)
Record CallToolResult := mkCallToolResult {
  IsError : bool;
  result_Content : list Content;
}.

(** [embeddings.VectorDBClient], the fields that [CallTool] and [Close]
    read. [cmd] and [session] are pointers: [None] is nil. What the process
    and the session answer is given by the environment of each call. *)
Record VectorDBClient := mkVectorDBClient {
  cmd : option unit;
  session : option unit;
  containerName : string;
}.

(** ** Logging and effects *)

(** An argument of a [log.Logf] call. *)
Inductive logarg : Type :=
| ArgInt (n : Z)
| ArgString (s : string)
| ArgAny (v : any)
| ArgMetadata (m : gmap string any)
| ArgError (err : error).

(** A call of [log.Log] or [log.Logf], with its format left as written. *)
Inductive logline : Type :=
| Log (msg : string)
| Logf (format : string) (args : list logarg).

(** What a discovery call does to the outside, in order. *)
Inductive event : Type :=
| EvEmbedding (text : string)
| EvCallTool (toolName : string) (arguments : SearchArgs)
| EvLog (line : logline).

(** A computation with its trace of effects. *)
Definition M (A : Type) : Type := list event * outcome A.

Definition ret {A} (v : A) : M A := ([], Returned v).

Definition fail {A} (err : error) : M A := ([], Failed err).

Definition bind {A B} (m : M A) (k : A -> M B) : M B :=
  match m with
  | (tr, Returned v) => let '(tr', r) := k v in (tr ++ tr', r)
  | (tr, Failed err) => (tr, Failed err)
  | (tr, Panic) => (tr, Panic)
  end.

(** [if err != nil { return nil, fmt.Errorf("prefix: %w", err) }]. *)
Definition orWrap {A} (prefix : string) (m : M A) : M A :=
  match m with
  | (tr, Failed err) => (tr, Failed (wrap prefix err))
  | _ => m
  end.

Definition emit (e : event) : M unit := ([e], Returned tt).

Declare Scope go_scope.
Delimit Scope go_scope with go.
Notation "x <- m ;; k" := (bind m (fun x => k))
  (at level 100, m at next level, right associativity) : go_scope.
Local Open Scope go_scope.

(** ** Keyword strategy *)

(** [ServerMatch]. *)
Record ServerMatch := mkServerMatch {
  Name : string;
  match_Server : Server;
  Score : Z;
}.

(** Modelled from the spec: the helper [maxInt] is not among the sources;
    section 4.2 has the score keep the maximum achieved across fields. *)
Definition maxInt (a b : Z) : Z := Z.max a b.

(** One entry of the map-shaped server info that both strategies emit. A
    key that the code leaves out of the map is [None]. *)
Record ServerInfo := mkServerInfo {
  info_name : string;
  info_description : option string;
  info_required_secrets : option (list string);
  info_config_schema : option (list any);
  info_long_lived : bool;
}.

(** The server info map, built the same way by both strategies. *)
Definition serverInfoOf (name : string) (server : Server) : ServerInfo :=
  {| info_name := name;
     info_description :=
       if streq (Description server) "" then None else Some (Description server);
     info_required_secrets :=
       if (0 <? Z.of_nat (length (Secrets server)))
       then Some (fold_left (fun secrets secret => secrets ++ [secret_Name secret])
                            (Secrets server) [])
       else None;
     info_config_schema :=
       if (0 <? Z.of_nat (length (Config server))) then Some (Config server) else None;
     info_long_lived := LongLived server |}.

(** The response map [{prompt, total_matches, servers}]. *)
Record FindServersResponse := mkFindServersResponse {
  resp_prompt : string;
  resp_total_matches : Z;
  resp_servers : list ServerInfo;
}.

(** The parameters decoded from a find-servers request. *)
Record FindServersParams := mkFindServersParams {
  Prompt : string;
  Limit : Z;
}.

(** The parameters decoded from a find-tools request. *)
Record FindToolsParams := mkFindToolsParams {
  tools_Prompt : string;
}.

(** [mcp.CallToolRequest]: [req.Params.Arguments], [None] when nil. *)
Record CallToolRequest := mkCallToolRequest {
  Arguments : option any;
}.

(** The [mcp.CallToolResult] a handler returns: one text content. *)
Record HandlerResult := mkHandlerResult {
  Text : string;
}.

(** *** The sort of the matches *)

(** [matches[i], matches[j] = matches[j], matches[i]]; [None] when an
    index is out of range. *)
Definition swap (matches : list ServerMatch) (i j : nat) : option (list ServerMatch) :=
  match matches !! i, matches !! j with
  | Some a, Some b => Some (<[j:=a]> (<[i:=b]> matches))
  | _, _ => None
  end.

(** The body of the inner loop at index [j]. *)
Definition sortStep (i : nat) (acc : option (list ServerMatch)) (j : nat)
  : option (list ServerMatch) :=
  match acc with
  | None => None
  | Some matches =>
      match matches !! i, matches !! j with
      | Some a, Some b => if Score a <? Score b then swap matches i j else Some matches
      | _, _ => None
      end
  end.

(** The inner loop [for j := i + 1; j < len(matches); j++], with [n] the
    length of the slice (a swap keeps it). *)
Definition sortPass (n : nat) (acc : option (list ServerMatch)) (i : nat)
  : option (list ServerMatch) :=
  fold_left (sortStep i) (seq (i + 1) (n - (i + 1))) acc.

(** The outer loop [for i := range len(matches) - 1]. *)
Definition sortMatches (matches : list ServerMatch) : option (list ServerMatch) :=
  let n := length matches in
  fold_left (sortPass n) (seq 0 (n - 1)) (Some matches).

(** [if len(matches) > limit { matches = matches[:limit] }]. *)
Definition limitMatches (limit : Z) (matches : list ServerMatch) : list ServerMatch :=
  if (limit <? Z.of_nat (length matches)) then take (Z.to_nat limit) matches else matches.

(** The loop that formats the matches. *)
Definition formatMatches (matches : list ServerMatch) : list ServerInfo :=
  fold_left
    (fun results match_ =>
       results ++ [serverInfoOf (Name match_) (match_Server match_)])
    matches [].

(** [if params.Limit <= 0 { params.Limit = 10 }]. *)
Definition normalizeLimit (limit : Z) : Z := if (limit <=? 0) then 10 else limit.

(** ** Tool discovery data *)

(** One entry of the [tools] list of a find-tools response; [inputSchema]
    is present only for a registration that has one. *)
Record ToolInfo := mkToolInfo {
  tinfo_name : string;
  tinfo_description : string;
  tinfo_inputSchema : option Schema;
}.

(** [Gateway], the fields that discovery reads. *)
Record Gateway := mkGateway {
  embeddingsClient : option VectorDBClient;
  toolRegistrations : gmap string ToolRegistration;
  configuration : Configuration;
}.

(** The collection that holds one vector per catalog server. *)
Definition serverCollection : string := "mcp-server-collection".

(** The first text content of a reply, [""] when there is none. *)
Fixpoint firstText (contents : list Content) : string :=
  match contents with
  | [] => ""
  | TextContent text :: _ => text
  | OtherContent :: rest => firstText rest
  end.

(** The tool name of a hit: [metadata.tool] when it is a string,
    [metadata.tool.name] when it is a map with a string name, else [""]. *)
Definition extractToolName (toolNameInterface : any) : string :=
  match toolNameInterface with
  | AMap v =>
      match v !! "name" with
      | Some (AString s) => s
      | _ => ""
      end
  | AString v => v
  | _ => ""
  end.

(** The tool of find-tools and its input schema. *)
Definition findToolsTool : McpTool :=
  {| mcp_Name := "find-tools";
     mcp_Description := "Analyze a task description and recommend relevant MCP tools that could help accomplish it. Uses AI to intelligently match your needs to available tools.";
     mcp_InputSchema :=
       Some (mkSchema "object" ""
               {[ "prompt" :=
                    mkSchema "string"
                      "Description of the task or goal you want to accomplish. An AI will analyze this and recommend relevant tools from the available inventory."
                      ∅ [] ]}
               ["prompt"]) |}.

(** ** Teardown of the index client *)

(** What the outside answers during one call of [Close]: the error (or nil)
    of [session.Close()], of [docker stop] and of [cmd.Wait()]. *)
Record CloseEnv := mkCloseEnv {
  session_Close : option error;
  stopCmd_Run : option error;
  cmd_Wait : option error;
}.

(** [VectorDBClient.Close]: the client after the call, the lines logged
    and the error returned. *)
Definition Close (env : CloseEnv) (c : VectorDBClient)
  : VectorDBClient * list logline * option error :=
  let sessionErr :=
    match session c with
    | Some _ => session_Close env
    | None => None
    end in
  let log0 := [Log "close the DBClient"] in
  let '(c1, log1) :=
    if negb (streq (containerName c) "") then
      (mkVectorDBClient (cmd c) (session c) "",
       [Logf "Stopping container: %s" [ArgString (containerName c)]] ++
       match stopCmd_Run env with
       | Some err =>
           [Logf "Container %s stop result: %v (this is expected if already stopped)"
                 [ArgString (containerName c); ArgError err]]
       | None => []
       end)
    else (c, []) in
  let '(c2, log2) :=
    match cmd c1 with
    | Some _ =>
        (mkVectorDBClient None (session c1) (containerName c1),
         [Log "Waiting for docker run process to exit"] ++
         match cmd_Wait env with
         | Some waitErr =>
             if negb (streq waitErr "exec: Wait was already called")
             then [Logf "Docker run process exited with: %v" [ArgError waitErr]]
             else []
         | None => []
         end)
    | None => (c1, [])
    end in
  (c2, log0 ++ log1 ++ log2 ++ [Log "DBClient closed"], sessionErr).

(** [Close] called once per environment, in a row: the final client and
    the error returned by each call. *)
Fixpoint CloseAll (envs : list CloseEnv) (c : VectorDBClient)
  : VectorDBClient * list (option error) :=
  match envs with
  | [] => (c, [])
  | env :: envs' =>
      let '(c', _, err) := Close env c in
      let '(c'', errs) := CloseAll envs' c' in
      (c'', err :: errs)
  end.

(** ** The sort, one pass at a time *)

(** One pass of the inner loop seen on the slice from index [i] on: [x] is
    the element at [i], [rest] what follows it. The result is the element
    left at [i] and the rest after the swaps. *)
Fixpoint bubbleMax (x : ServerMatch) (rest : list ServerMatch)
  : ServerMatch * list ServerMatch :=
  match rest with
  | [] => (x, [])
  | y :: rest' =>
      if Score x <? Score y
      then let '(m, r) := bubbleMax y rest' in (m, x :: r)
      else let '(m, r) := bubbleMax x rest' in (m, y :: r)
  end.

(** [k] passes, each on the slice that the pass before left behind. *)
Fixpoint exchangeSort (k : nat) (l : list ServerMatch) : list ServerMatch :=
  match k, l with
  | S k', x :: rest => let '(m, r) := bubbleMax x rest in m :: exchangeSort k' r
  | _, _ => l
  end.

(** Scores do not increase from [a] to [b]. *)
Definition byScore (a b : ServerMatch) : Prop := Score b <= Score a.

(** [a] stands before [b] in [l]. *)
Definition precedes (l : list ServerMatch) (a b : ServerMatch) : Prop :=
  exists i j : nat, (i < j)%nat /\ l !! i = Some a /\ l !! j = Some b.

(** Matches of equal score stand in [out] as they stand in [encounter]. *)
Definition tiesKeepOrder (encounter out : list ServerMatch) : Prop :=
  forall a b, Score a = Score b -> precedes out a b -> precedes encounter a b.

(** ** Start and probes of the index client *)

(** What the outside answers during [NewVectorDBClient]: the clock
    ([time.Now().UnixNano()]) and [mcpClient.Connect] on the transport of
    the given command line, which starts the command. *)
Record ConnectEnv := mkConnectEnv {
  UnixNano : Z;
  mcp_Connect : list string -> error + unit;
}.

(** The command line of [exec.CommandContext] in [NewVectorDBClient];
    [%d] is the decimal rendering of an integer. *)
Definition dockerRunArgs (containerName dataDir : string) (dimension : Z) : list string :=
  ["docker"; "run"; "-i"; "--rm";
   "--name"; containerName;
   "--platform"; "linux/amd64";
   "-v"; dataDir +:+ ":/data";
   "-e"; "DB_PATH=/data/vectors.db";
   "-e"; "VECTOR_DIMENSION=" +:+ pretty dimension;
   "jimclark106/vector-db:latest"].

(** [NewVectorDBClient]: the command line handed to the transport and the
    client or the error returned. *)
Definition NewVectorDBClient (env : ConnectEnv) (dataDir : string) (dimension : Z)
  : list string * (error + VectorDBClient) :=
  let dimension := if dimension <=? 0 then 1536 else dimension in
  let containerName := "vector-db-" +:+ pretty (UnixNano env) in
  let command := dockerRunArgs containerName dataDir dimension in
  match mcp_Connect env command with
  | inl err => (command, inl (wrap "failed to connect to MCP server" err))
  | inr _ => (command, inr (mkVectorDBClient (Some tt) (Some tt) containerName))
  end.

(** What the process answers to a probe: [cmd.Process] ([None] is nil) and
    the error of [Process.Signal(nil)]. *)
Record ProcessEnv := mkProcessEnv {
  cmd_Process : option unit;
  Process_Signal : option error;
}.

(** [VectorDBClient.IsAlive]. *)
Definition IsAlive (env : ProcessEnv) (c : VectorDBClient) : bool :=
  match cmd c with
  | None => false
  | Some _ =>
      match cmd_Process env with
      | None => false
      | Some _ =>
          match Process_Signal env with
          | None => true
          | Some _ => false
          end
      end
  end.

(** [VectorDBClient.Wait]; [waited] is what [cmd.Wait()] answers. *)
Definition Wait (waited : option error) (c : VectorDBClient) : option error :=
  match cmd c with
  | None => None
  | Some _ => waited
  end.

(** [VectorDBClient.Session]. *)
Definition Session (c : VectorDBClient) : option unit := session c.

(** ** The embedding provider call *)

Module OpenAI.

(** The request and response bodies of [generateEmbedding]. *)
Record embeddingRequest := mkEmbeddingRequest {
  Input : string;
  Model : string;
}.

Record embeddingDatum := mkEmbeddingDatum {
  Embedding : list float64;
}.

(** [http.Request] and [http.Response], the parts the call sets or reads. *)
Record Request := mkRequest {
  Method : string;
  URL : string;
  Header : gmap string string;
  Body : string;
}.

Record Response := mkResponse {
  StatusCode : Z;
  ResponseBody : string;
}.

(** The outside of the call: the process environment, [json.Marshal] of
    the request body, whether [http.NewRequestWithContext] fails, the
    answer of [client.Do] and the decoding of a response body into the
    [data] list. *)
Record Env := mkEnv {
  Getenv : string -> string;
  json_Marshal : embeddingRequest -> error + string;
  http_NewRequest : string -> string -> string -> option error;
  client_Do : Request -> error + Response;
  json_Decode : string -> error + list embeddingDatum;
}.

Definition endpoint : string := "https://api.openai.com/v1/embeddings".

(** [generateEmbedding]: the requests sent and the vector or the error. *)
Definition generateEmbedding (env : Env) (text : string)
  : list Request * (error + list float64) :=
  let apiKey := Getenv env "OPENAI_API_KEY" in
  if streq apiKey "" then ([], inl "OPENAI_API_KEY environment variable not set")
  else
    match json_Marshal env (mkEmbeddingRequest text "text-embedding-3-small") with
    | inl err => ([], inl (wrap "failed to marshal request" err))
    | inr reqBody =>
        match http_NewRequest env "POST" endpoint reqBody with
        | Some err => ([], inl (wrap "failed to create request" err))
        | None =>
            let req :=
              mkRequest "POST" endpoint
                (<["Authorization" := "Bearer " +:+ apiKey]>
                   (<["Content-Type" := "application/json"]> ∅))
                reqBody in
            match client_Do env req with
            | inl err => ([req], inl (wrap "failed to make request" err))
            | inr resp =>
                if negb (StatusCode resp =? 200) then
                  ([req], inl ("API returned status " +:+ pretty (StatusCode resp)))
                else
                  match json_Decode env (ResponseBody resp) with
                  | inl err => ([req], inl (wrap "failed to decode response" err))
                  | inr data =>
                      match data with
                      | [] => ([req], inl "no embedding returned")
                      | first :: _ => ([req], inr (Embedding first))
                      end
                  end
            end
        end
    end.

End OpenAI.


(** ** Concrete data for evaluation *)

Definition plainServer (description : string) : Server :=
  mkServer "" description "" [] [] [] false.

(** The catalog of the end-to-end scenario of the design document. *)
Definition demoCatalog : list (string * Server) :=
  [("github", plainServer "GitHub API integration");
   ("weather", plainServer "forecast lookup")].

(** Three servers whose names contain [db]; the last one is named [db]. *)
Definition tieCatalog : list (string * Server) :=
  [("db-a", plainServer ""); ("db-b", plainServer ""); ("db", plainServer "")].

(** A structural stand-in for the JSON codec: the bytes are the value. *)
Definition demoUnmarshalServers (a : any) : error + FindServersParams :=
  match a with
  | AMap m =>
      match m !! "prompt", m !! "limit" with
      | Some (AString p), None => inr (mkFindServersParams p 0)
      | None, None => inr (mkFindServersParams "" 0)
      | _, _ => inl "json: cannot unmarshal"
      end
  | _ => inl "json: cannot unmarshal"
  end.

Definition demoUnmarshalTools (a : any) : error + FindToolsParams :=
  match a with
  | AMap m =>
      match m !! "prompt" with
      | Some (AString p) => inr (mkFindToolsParams p)
      | None => inr (mkFindToolsParams "")
      | _ => inl "json: cannot unmarshal"
      end
  | _ => inl "json: cannot unmarshal"
  end.

(** A client that was connected and has not been closed. *)
Definition liveClient : VectorDBClient :=
  mkVectorDBClient (Some tt) (Some tt) "vector-db-1".

(** A teardown in which the session reports an error on every close. *)
Definition failingSessionEnv : CloseEnv :=
  mkCloseEnv (Some "connection closed") None None.

(** A match of [tieCatalog]. *)
Definition tieMatch (name : string) (score : Z) : ServerMatch :=
  mkServerMatch name (plainServer "") score.

(** A lookup that knows the two servers of [demoCatalog]. *)
Definition demoFind (name : string) : option ServerConfig :=
  if streq name "github" then Some (mkServerConfig (plainServer "GitHub API integration"))
  else if streq name "weather" then Some (mkServerConfig (plainServer "forecast lookup"))
  else None.

Definition demoConfiguration : Configuration := mkConfiguration demoCatalog demoFind.

Definition tieConfiguration : Configuration := mkConfiguration tieCatalog (fun _ => None).

Definition demoRegistrations : gmap string ToolRegistration :=
  {[ "list_issues" :=
       mkToolRegistration "github" (mkMcpTool "list_issues" "List the issues" None) ]}.

Definition demoGateway : Gateway :=
  mkGateway (Some liveClient) demoRegistrations demoConfiguration.

(** Search hits of the server collection, one that names a catalog server
    and one without metadata, and search hits of the collection of a
    server, one that names a registered tool and one without metadata. *)
Definition hitGithub : SearchResult :=
  mkSearchResult 1 serverCollection 0 {[ "name" := AString "github" ]} 1536.

Definition hitBare : SearchResult :=
  mkSearchResult 2 serverCollection 0 ∅ 1536.

Definition hitTool : SearchResult :=
  mkSearchResult 4 "github" 0
    {[ "tool" := AMap {[ "name" := AString "list_issues" ]} ]} 1536.

Definition hitBareTool : SearchResult :=
  mkSearchResult 5 "github" 0 ∅ 1536.

(** An embedding provider that always answers, and an index service that
    answers a search of the server collection alone with server hits, a
    search of all but the server collection with tool hits, and any other
    search with none; it returns as many hits as the limit allows, up to
    two. The reply text names the kind and the number of the hits. *)
Definition demoEmbedding (text : string) : error + list float64 := inr [].

Definition demoSession (toolName : string) (arguments : SearchArgs)
  : error + CallToolResult :=
  let kind :=
    if streq (args_CollectionName arguments) serverCollection
       && bool_decide (args_ExcludeCollections arguments = [])
    then "s"
    else if streq (args_CollectionName arguments) ""
            && bool_decide (args_ExcludeCollections arguments = [serverCollection])
    then "t"
    else "n" in
  let count :=
    if 2 <=? args_Limit arguments then "2"
    else if 1 <=? args_Limit arguments then "1" else "0" in
  inr (mkCallToolResult false [TextContent (kind +:+ count)]).

Definition demoResults (text : string) : error + list SearchResult :=
  if streq text "s2" then inr [hitBare; hitGithub]
  else if streq text "s1" then inr [hitGithub]
  else if streq text "t2" then inr [hitBareTool; hitTool]
  else if streq text "t1" then inr [hitTool]
  else inr [].

Definition demoContent (contents : list Content) : string := "".

Definition demoMarshalResponse (response : FindServersResponse) : error + string :=
  inr "response".

Definition demoMarshalTools (tools : list ToolInfo) : error + string := inr "tools".

Definition demoMarshal (a : any) : error + any := inr a.

(** Requests: a prompt, no prompt at all, no arguments at all. *)
Definition requestFor (prompt : string) : CallToolRequest :=
  mkCallToolRequest (Some (AMap {[ "prompt" := AString prompt ]})).

Definition requestWithoutPrompt : CallToolRequest := mkCallToolRequest (Some (AMap ∅)).

(** A clock and a transport that connects; a transport that does not. *)
Definition demoConnectEnv (nanos : Z) : ConnectEnv :=
  mkConnectEnv nanos (fun _ => inr tt).

Definition refusingConnectEnv : ConnectEnv :=
  mkConnectEnv 1 (fun _ => inl "exec: docker: executable file not found").

(** A provider environment without API key, and one with a key whose
    provider answers status 200 and two embeddings. *)
Definition keylessProvider : OpenAI.Env :=
  OpenAI.mkEnv (fun _ => "") (fun _ => inr "{}") (fun _ _ _ => None)
    (fun _ => inl "unreachable") (fun _ => inr []).

Definition demoProvider : OpenAI.Env :=
  OpenAI.mkEnv (fun name => if streq name "OPENAI_API_KEY" then "sk-demo" else "")
    (fun r => inr (OpenAI.Input r))
    (fun _ _ _ => None)
    (fun _ => inr (OpenAI.mkResponse 200 "body"))
    (fun _ => inr [OpenAI.mkEmbeddingDatum [1; 2]; OpenAI.mkEmbeddingDatum [3]]).

(** Matches for the sort: two of the highest score and a lower one. *)
Definition sortDemoPre : list ServerMatch := [tieMatch "low" 40].

Definition sortDemoPost : list ServerMatch := [tieMatch "second-best" 90; tieMatch "other" 50].

(** A reply whose first text content follows a content of another kind. *)
Definition mixedReply : CallToolResult :=
  mkCallToolResult false [OtherContent; TextContent "s1"; TextContent "s2"].


(** An index service that always answers [mixedReply]. *)
Definition mixedSession (toolName : string) (arguments : SearchArgs)
  : error + CallToolResult := inr mixedReply.


Section Discovery.

(** *** Go's library, as used by the discovery code *)

(** [strings.ToLower] and [strings.TrimSpace]. *)
Variable ToLower : string -> string.
Variable TrimSpace : string -> string.

(** [encoding/json]: the bytes of the arguments, and the decoding of
    these bytes into the parameter struct of each handler. *)
Variable Bytes : Type.
Variable json_Marshal : any -> error + Bytes.
Variable json_Unmarshal_servers : Bytes -> error + FindServersParams.
Variable json_Unmarshal_tools : Bytes -> error + FindToolsParams.

(** [json.Marshal] of a find-servers response and [json.MarshalIndent]
    of a find-tools response. *)
Variable json_Marshal_response : FindServersResponse -> error + string.
Variable json_MarshalIndent_tools : list ToolInfo -> error + string.

(** [json.Unmarshal] of the text of a search reply. *)
Variable json_Unmarshal_results : string -> error + list SearchResult.

(** [fmt]'s rendering of a content slice under [%s]. *)
Variable fmt_Content : list Content -> string.

(** *** The outside of a discovery call *)

(** [generateEmbedding]: the embedding provider. *)
Variable generateEmbedding : string -> error + list float64.

(** [session.CallTool]: what the index service answers to a tool call. *)
Variable session_CallTool : string -> SearchArgs -> error + CallToolResult.

Definition lift {A} (r : error + A) : M A :=
  match r with
  | inl err => fail err
  | inr v => ret v
  end.

(** *** Keyword strategy *)

Definition scoreName (query serverName : string) : bool * Z :=
  let serverNameLower := ToLower serverName in
  if streq serverNameLower query then (true, 100)
  else if Contains serverNameLower query then (true, 50)
  else (false, 0).

Definition scoreTitle (query : string) (server : Server) (st : bool * Z) : bool * Z :=
  if negb (streq (Title server) "") then
    let titleLower := ToLower (Title server) in
    if streq titleLower query then (true, maxInt (snd st) 97)
    else if Contains titleLower query then (true, maxInt (snd st) 47)
    else st
  else st.

Definition scoreDescription (query : string) (server : Server) (st : bool * Z) : bool * Z :=
  if negb (streq (Description server) "") then
    let descriptionLower := ToLower (Description server) in
    if streq descriptionLower query then (true, maxInt (snd st) 95)
    else if Contains descriptionLower query then (true, maxInt (snd st) 45)
    else st
  else st.

Definition scoreTool (query : string) (st : bool * Z) (tool : Tool) : bool * Z :=
  let toolNameLower := ToLower (tool_Name tool) in
  let toolDescLower := ToLower (tool_Description tool) in
  if streq toolNameLower query then (true, maxInt (snd st) 90)
  else if Contains toolNameLower query then (true, maxInt (snd st) 40)
  else if Contains toolDescLower query then (true, maxInt (snd st) 30)
  else st.

Definition scoreImage (query : string) (server : Server) (st : bool * Z) : bool * Z :=
  if negb (streq (Image server) "") then
    let imageLower := ToLower (Image server) in
    if Contains imageLower query then (true, maxInt (snd st) 20) else st
  else st.

(** The body of the loop over the catalog, up to the final [if match]:
    the pair [(match, score)]. *)
Definition scoreServer (query serverName : string) (server : Server) : bool * Z :=
  let st := scoreName query serverName in
  let st := scoreTitle query server st in
  let st := scoreDescription query server st in
  let st := fold_left (scoreTool query) (Tools server) st in
  scoreImage query server st.

(** The loop [for serverName, server := range configuration.servers]. *)
Definition collectMatches (query : string) (catalog : list (string * Server))
  : list ServerMatch :=
  fold_left
    (fun matches '(serverName, server) =>
       let '(match_, score) := scoreServer query serverName server in
       if match_ then matches ++ [mkServerMatch serverName server score]
       else matches)
    catalog [].

(** The start of each find-servers handler: the decoded parameters. *)
Definition parseFindServers (req : CallToolRequest) : M FindServersParams :=
  match Arguments req with
  | None => fail "missing arguments"
  | Some arguments =>
      paramsBytes <- orWrap "failed to marshal arguments" (lift (json_Marshal arguments)) ;;
      orWrap "failed to parse arguments" (lift (json_Unmarshal_servers paramsBytes))
  end.

(** The matches of a query after the sort and the cut at the limit. *)
Definition rankedMatches (configuration : Configuration) (params : FindServersParams)
  : option (list ServerMatch) :=
  let limit := normalizeLimit (Limit params) in
  let query := ToLower (TrimSpace (Prompt params)) in
  let matches := collectMatches query (servers configuration) in
  match sortMatches matches with
  | None => None
  | Some matches => Some (limitMatches limit matches)
  end.

(** [keywordStrategy] from the prompt check to the response map. *)
Definition keywordResponse (configuration : Configuration) (params : FindServersParams)
  : M FindServersResponse :=
  if streq (Prompt params) "" then fail "query parameter is required"
  else
    match rankedMatches configuration params with
    | None => ([], Panic)
    | Some matches =>
        let results := formatMatches matches in
        ret {| resp_prompt := Prompt params;
               resp_total_matches := Z.of_nat (length results);
               resp_servers := results |}
    end.

(** The end of each find-servers handler: the response as text. *)
Definition respond (response : FindServersResponse) : M HandlerResult :=
  responseBytes <- orWrap "failed to marshal response" (lift (json_Marshal_response response)) ;;
  ret (mkHandlerResult responseBytes).

(** [keywordStrategy(configuration)], the handler. *)
Definition keywordStrategy (configuration : Configuration) (req : CallToolRequest)
  : M HandlerResult :=
  params <- parseFindServers req ;;
  response <- keywordResponse configuration params ;;
  respond response.

(** *** Index client: search *)

(** [VectorDBClient.CallTool]. *)
Definition CallTool (c : VectorDBClient) (toolName : string) (arguments : SearchArgs)
  : M CallToolResult :=
  match session c with
  | None => fail "session not initialized"
  | Some _ =>
      _ <- emit (EvCallTool toolName arguments) ;;
      match session_CallTool toolName arguments with
      | inl err => fail ("tool call '" +:+ toolName +:+ "' failed: " +:+ err)
      | inr result => ret result
      end
  end.

(** [VectorDBClient.SearchVectors]; [options] is a pointer. *)
Definition SearchVectors (c : VectorDBClient) (vector : list float64)
    (options : option SearchOptions) : M (list SearchResult) :=
  let args :=
    match options with
    | Some o => mkSearchArgs vector (CollectionName o) (ExcludeCollections o) (opt_Limit o)
    | None => mkSearchArgs vector "" [] 0
    end in
  result <- CallTool c "search" args ;;
  if IsError result then
    fail ("tool returned error: " +:+ fmt_Content (result_Content result))
  else if (Z.of_nat (length (result_Content result)) =? 0) then
    fail "empty response from search"
  else
    let textContent := firstText (result_Content result) in
    if streq textContent "" then fail "no text content in response"
    else orWrap "failed to parse search response" (lift (json_Unmarshal_results textContent)).

(** The call of [generateEmbedding], recorded in the trace. *)
Definition embed (text : string) : M (list float64) :=
  _ <- emit (EvEmbedding text) ;;
  lift (generateEmbedding text).

(** *** Server discovery by embedding *)

(** The body of the loop over the search results: the servers collected
    so far and the lines logged so far. *)
Definition reconcileServer (g : Gateway) (acc : list ServerInfo * list logline)
    (result : SearchResult) : list ServerInfo * list logline :=
  let '(servers, logs) := acc in
  match Metadata result !! "name" with
  | None =>
      (servers,
       logs ++ [Logf "Warning: search result %d missing 'name' in metadata"
                     [ArgInt (ID result)]])
  | Some serverNameInterface =>
      match serverNameInterface with
      | AString serverName =>
          match Find (configuration g) serverName with
          | None =>
              (servers,
               logs ++ [Logf "Warning: server %s not found in catalog"
                             [ArgString serverName]])
          | Some server =>
              (servers ++ [serverInfoOf serverName (Spec server)], logs)
          end
      | _ =>
          (servers,
           logs ++ [Logf "Warning: server name is not a string: %v"
                         [ArgAny serverNameInterface]])
      end
  end.

Definition reconcileServers (g : Gateway) (results : list SearchResult)
  : list ServerInfo * list logline :=
  fold_left (reconcileServer g) results ([], []).

(** The lines of a loop, as events of the call. *)
Definition logged {A} (r : A * list logline) : M A :=
  (map EvLog (snd r), Returned (fst r)).

(** [Gateway.findServersByEmbedding]. *)
Definition findServersByEmbedding (g : Gateway) (query : string) (limit : Z)
  : M (list ServerInfo) :=
  match embeddingsClient g with
  | None => fail "embeddings client not initialized"
  | Some client =>
      queryVector <- orWrap "failed to generate embedding" (embed query) ;;
      results <- orWrap "failed to search vectors"
                   (SearchVectors client queryVector
                      (Some (mkSearchOptions serverCollection [] limit))) ;;
      logged (reconcileServers g results)
  end.

(** [embeddingStrategy] from the prompt check to the response map. *)
Definition embeddingResponse (g : Gateway) (params : FindServersParams)
  : M FindServersResponse :=
  if streq (Prompt params) "" then fail "query parameter is required"
  else
    let limit := normalizeLimit (Limit params) in
    results <- orWrap "failed to find servers"
                 (findServersByEmbedding g (Prompt params) limit) ;;
    ret {| resp_prompt := Prompt params;
           resp_total_matches := Z.of_nat (length results);
           resp_servers := results |}.

(** [embeddingStrategy(g)], the handler. *)
Definition embeddingStrategy (g : Gateway) (req : CallToolRequest) : M HandlerResult :=
  params <- parseFindServers req ;;
  response <- embeddingResponse g params ;;
  respond response.

(** *** Tool discovery by embedding *)

(** The tool map of a registration. *)
Definition toolInfoOf (toolReg : ToolRegistration) : ToolInfo :=
  {| tinfo_name := mcp_Name (reg_Tool toolReg);
     tinfo_description := mcp_Description (reg_Tool toolReg);
     tinfo_inputSchema := mcp_InputSchema (reg_Tool toolReg) |}.

(** The body of the loop over the search results of tool discovery. *)
Definition reconcileTool (g : Gateway) (acc : list ToolInfo * list logline)
    (result : SearchResult) : list ToolInfo * list logline :=
  let '(tools, logs) := acc in
  match Metadata result !! "tool" with
  | None =>
      (tools,
       logs ++ [Logf "Warning: search result %d missing 'tool' in metadata"
                     [ArgInt (ID result)]])
  | Some toolNameInterface =>
      let toolName := extractToolName toolNameInterface in
      if streq toolName "" then
        (tools,
         logs ++ [Logf "Warning: could not extract tool name from metadata: %v"
                       [ArgMetadata (Metadata result)]])
      else
        match toolRegistrations g !! toolName with
        | None =>
            (tools,
             logs ++ [Logf "Warning: tool %s not found in registrations"
                           [ArgString toolName]])
        | Some toolReg => (tools ++ [toolInfoOf toolReg], logs)
        end
  end.

Definition reconcileTools (g : Gateway) (results : list SearchResult)
  : list ToolInfo * list logline :=
  fold_left (reconcileTool g) results ([], []).

(** [Gateway.findToolsByEmbedding]. *)
Definition findToolsByEmbedding (g : Gateway) (prompt : string) : M (list ToolInfo) :=
  match embeddingsClient g with
  | None => fail "embeddings client not initialized"
  | Some client =>
      queryVector <- orWrap "failed to generate embedding" (embed prompt) ;;
      results <- orWrap "failed to search vectors"
                   (SearchVectors client queryVector
                      (Some (mkSearchOptions "" [serverCollection] 5))) ;;
      logged (reconcileTools g results)
  end.

(** The start of the find-tools handler: the decoded parameters. *)
Definition parseFindTools (req : CallToolRequest) : M FindToolsParams :=
  match Arguments req with
  | None => fail "missing arguments"
  | Some arguments =>
      paramsBytes <- orWrap "failed to marshal arguments" (lift (json_Marshal arguments)) ;;
      orWrap "failed to parse arguments" (lift (json_Unmarshal_tools paramsBytes))
  end.

(** The find-tools handler from the prompt check to the tools list. *)
Definition findToolsResponse (g : Gateway) (params : FindToolsParams) : M (list ToolInfo) :=
  if streq (tools_Prompt params) "" then fail "prompt parameter is required"
  else orWrap "failed to find tools" (findToolsByEmbedding g (tools_Prompt params)).

(** The handler that [createFindToolsTool] registers. *)
Definition findToolsHandler (g : Gateway) (req : CallToolRequest) : M HandlerResult :=
  params <- parseFindTools req ;;
  tools <- findToolsResponse g params ;;
  responseJSON <- orWrap "failed to marshal response" (lift (json_MarshalIndent_tools tools)) ;;
  ret (mkHandlerResult responseJSON).

(** [Gateway.createFindToolsTool]: an internal tool, without a server. *)
Definition createFindToolsTool : ToolRegistration :=
  {| ServerName := ""; reg_Tool := findToolsTool |}.

(** *** The score as the design document words it *)

(** The weights of one field tested against the query: the exact weight
    when the lowered field equals the query, the contains weight when it
    contains the query. *)
Definition exactWeight (w : Z) (query field : string) : list Z :=
  if streq (ToLower field) query then [w] else [].

Definition containsWeight (w : Z) (query field : string) : list Z :=
  if Contains (ToLower field) query then [w] else [].

Definition toolWeights (query : string) (tool : Tool) : list Z :=
  exactWeight 90 query (tool_Name tool) ++ containsWeight 40 query (tool_Name tool) ++
  containsWeight 30 query (tool_Description tool).

(** The weights of all matching fields of a server: name 100/50, title
    97/47, description 95/45, tool name 90/40, tool description -/30,
    image -/20. *)
Definition fieldWeights (query serverName : string) (server : Server) : list Z :=
  (exactWeight 100 query serverName ++ containsWeight 50 query serverName) ++
  (exactWeight 97 query (Title server) ++ containsWeight 47 query (Title server)) ++
  (exactWeight 95 query (Description server) ++
   containsWeight 45 query (Description server)) ++
  flat_map (toolWeights query) (Tools server) ++
  containsWeight 20 query (Image server).

(** The same weights with the title, the description and the image
    counted only when the server has them, as the code guards them; the
    two lists differ only for the empty query. *)
Definition present (field : string) (ws : list Z) : list Z :=
  if streq field "" then [] else ws.

Definition presentWeights (query serverName : string) (server : Server) : list Z :=
  (exactWeight 100 query serverName ++ containsWeight 50 query serverName) ++
  present (Title server)
    (exactWeight 97 query (Title server) ++ containsWeight 47 query (Title server)) ++
  present (Description server)
    (exactWeight 95 query (Description server) ++
     containsWeight 45 query (Description server)) ++
  flat_map (toolWeights query) (Tools server) ++
  present (Image server) (containsWeight 20 query (Image server)).

(** The maximum of a list of weights, 0 for no weight. *)
Definition maxWeight (ws : list Z) : Z := foldr Z.max 0 ws.

(** A server matches when some field does. *)
Definition anyWeight (ws : list Z) : bool :=
  match ws with
  | [] => false
  | _ :: _ => true
  end.

(** The running pair [(match, score)] that stands for a list of weights. *)
Definition summary (ws : list Z) : bool * Z := (anyWeight ws, maxWeight ws).

(** *** Reconciliation, hit by hit *)

(** The server info that a hit contributes, when it resolves. *)
Definition serverOf (g : Gateway) (result : SearchResult) : option ServerInfo :=
  match Metadata result !! "name" with
  | Some (AString serverName) =>
      match Find (configuration g) serverName with
      | Some server => Some (serverInfoOf serverName (Spec server))
      | None => None
      end
  | _ => None
  end.

(** The tool info that a hit contributes, when it resolves. *)
Definition toolOf (g : Gateway) (result : SearchResult) : option ToolInfo :=
  match Metadata result !! "tool" with
  | Some toolNameInterface =>
      if streq (extractToolName toolNameInterface) "" then None
      else toolInfoOf <$> toolRegistrations g !! extractToolName toolNameInterface
  | None => None
  end.

(** A line that [log.Logf] writes as a warning. *)
Definition isWarning (line : logline) : Prop :=
  exists text args, line = Logf ("Warning: " +:+ text) args.

(** A server hit to be dropped, in the words of the design document: the
    metadata lacks a name field, the name is not a string, or the name is
    absent from the catalog. *)
Definition droppedServerHit (g : Gateway) (result : SearchResult) : Prop :=
  Metadata result !! "name" = None \/
  (exists v, Metadata result !! "name" = Some v /\ forall s, v <> AString s) \/
  (exists s, Metadata result !! "name" = Some (AString s) /\
             Find (configuration g) s = None).

(** The name field of a tool hit: [metadata.tool] itself when it is a
    string, [metadata.tool.name] when [metadata.tool] is a map. *)
Definition toolNameField (result : SearchResult) : option any :=
  match Metadata result !! "tool" with
  | Some (AString s) => Some (AString s)
  | Some (AMap v) => v !! "name"
  | _ => None
  end.

(** A tool hit to be dropped: no name field, a name that is not a string,
    or a name that is not registered. *)
Definition droppedToolHit (g : Gateway) (result : SearchResult) : Prop :=
  toolNameField result = None \/
  (exists v, toolNameField result = Some v /\ forall s, v <> AString s) \/
  (exists s, toolNameField result = Some (AString s) /\ toolRegistrations g !! s = None).

(** The index service keeps to the limit of a search, which its interface
    documents as the maximum number of results: a reply to a search with a
    positive limit carries at most that many results. *)
Definition honoursLimit : Prop :=
  forall args reply results,
    session_CallTool "search" args = inr reply ->
    json_Unmarshal_results (firstText (result_Content reply)) = inr results ->
    0 < args_Limit args ->
    Z.of_nat (length results) <= args_Limit args.

(** The index service keeps to the collections of a search: the results
    come from the named collection when one is named, and from none of the
    excluded ones. *)
Definition honoursCollections : Prop :=
  forall args reply results,
    session_CallTool "search" args = inr reply ->
    json_Unmarshal_results (firstText (result_Content reply)) = inr results ->
    Forall (fun r =>
              (args_CollectionName args <> "" -> Collection r = args_CollectionName args) /\
              Collection r ∉ args_ExcludeCollections args)
           results.

(** The tool calls among the events of a trace. *)
Definition toolCalls (tr : list event) : list (string * SearchArgs) :=
  omap (fun e => match e with
                 | EvCallTool toolName arguments => Some (toolName, arguments)
                 | _ => None
                 end) tr.

(** The lines logged among the events of a trace. *)
Definition logLines (tr : list event) : list logline :=
  omap (fun e => match e with EvLog line => Some line | _ => None end) tr.

(** The line logged for a server hit that is dropped. *)
Definition serverWarning (g : Gateway) (result : SearchResult) : option logline :=
  match Metadata result !! "name" with
  | None =>
      Some (Logf "Warning: search result %d missing 'name' in metadata" [ArgInt (ID result)])
  | Some (AString serverName) =>
      match Find (configuration g) serverName with
      | Some _ => None
      | None => Some (Logf "Warning: server %s not found in catalog" [ArgString serverName])
      end
  | Some v => Some (Logf "Warning: server name is not a string: %v" [ArgAny v])
  end.

(** The line logged for a tool hit that is dropped. *)
Definition toolWarning (g : Gateway) (result : SearchResult) : option logline :=
  match Metadata result !! "tool" with
  | None =>
      Some (Logf "Warning: search result %d missing 'tool' in metadata" [ArgInt (ID result)])
  | Some toolNameInterface =>
      if streq (extractToolName toolNameInterface) "" then
        Some (Logf "Warning: could not extract tool name from metadata: %v"
                   [ArgMetadata (Metadata result)])
      else
        match toolRegistrations g !! extractToolName toolNameInterface with
        | Some _ => None
        | None =>
            Some (Logf "Warning: tool %s not found in registrations"
                       [ArgString (extractToolName toolNameInterface)])
        end
  end.

(** A discovery call shaped as both are: client check, embedding, search
    with fixed options, reconciliation. *)
Definition discover {A} (g : Gateway) (text : string) (o : SearchOptions)
    (reconcile : list SearchResult -> list A * list logline) : M (list A) :=
  match embeddingsClient g with
  | None => fail "embeddings client not initialized"
  | Some client =>
      queryVector <- orWrap "failed to generate embedding" (embed text) ;;
      results <- orWrap "failed to search vectors"
                   (SearchVectors client queryVector (Some o)) ;;
      logged (reconcile results)
  end.


(** The ten weights that the keyword strategy assigns. *)
Definition weightTable : list Z := [100; 50; 97; 47; 95; 45; 90; 40; 30; 20].

(** What the title, the description, the tools and the image can add. *)
Definition otherWeights (query : string) (server : Server) : list Z :=
  present (Title server)
    (exactWeight 97 query (Title server) ++ containsWeight 47 query (Title server)) ++
  present (Description server)
    (exactWeight 95 query (Description server) ++
     containsWeight 45 query (Description server)) ++
  flat_map (toolWeights query) (Tools server) ++
  present (Image server) (containsWeight 20 query (Image server)).

(** The traces that a discovery call can leave: nothing; the embedding
    request alone; or the embedding request, one search with the returned
    vector and the options of the call, and then warnings only. *)
Definition discoveryTrace (text : string) (o : SearchOptions) (tr : list event) : Prop :=
  tr = [] \/
  tr = [EvEmbedding text] \/
  exists v lines,
    generateEmbedding text = inr v /\
    Forall isWarning lines /\
    tr = EvEmbedding text
           :: EvCallTool "search"
                (mkSearchArgs v (CollectionName o) (ExcludeCollections o) (opt_Limit o))
           :: map EvLog lines.

(** * Properties *)

(** ** The keyword score *)

Lemma HasPrefix_refl (s : string) : HasPrefix s s = true.
Proof.
  induction s as [|a s IH]; simpl; [reflexivity|].
  now rewrite Ascii.eqb_refl.
Qed.

Lemma Contains_refl (s : string) : Contains s s = true.
Proof. destruct s; simpl; [reflexivity|]. now rewrite Ascii.eqb_refl, HasPrefix_refl. Qed.

Lemma Contains_empty (query : string) : query <> "" -> Contains "" query = false.
Proof. destruct query; [congruence|reflexivity]. Qed.

Lemma streq_true (s t : string) : streq s t = true <-> s = t.
Proof. unfold streq. apply bool_decide_eq_true. Qed.

Lemma streq_false (s t : string) : streq s t = false <-> s <> t.
Proof. unfold streq. apply bool_decide_eq_false. Qed.

Lemma maxWeight_app (ws ws' : list Z) :
  maxWeight (ws ++ ws') = Z.max (maxWeight ws) (maxWeight ws').
Proof.
  induction ws as [|w ws IH]; simpl.
  - assert (0 <= maxWeight ws') by (induction ws'; simpl; lia). lia.
  - fold (maxWeight (ws ++ ws')) (maxWeight ws). lia.
Qed.

Lemma maxWeight_nonneg (ws : list Z) : 0 <= maxWeight ws.
Proof. induction ws; simpl; [lia|]. fold (maxWeight ws). lia. Qed.

Lemma anyWeight_app (ws ws' : list Z) :
  anyWeight (ws ++ ws') = anyWeight ws || anyWeight ws'.
Proof. destruct ws; reflexivity. Qed.

Lemma summary_nil_r (ws : list Z) : summary (ws ++ []) = summary ws.
Proof. now rewrite app_nil_r. Qed.

Lemma summary_hit (ws ws' : list Z) (w : Z) :
  0 <= w -> maxWeight ws' <= w ->
  (true, maxInt (snd (summary ws)) w) = summary (ws ++ w :: ws').
Proof.
  intros Hw Hle. unfold summary, maxInt. simpl snd.
  rewrite anyWeight_app, maxWeight_app. simpl.
  fold (maxWeight ws'). rewrite orb_true_r. f_equal. lia.
Qed.

(** Two tests on one field, exact then contains, as the code chains them. *)
Lemma exact_contains_stage (query field : string) (wx wc : Z) (ws : list Z) :
  0 <= wc <= wx ->
  (if streq (ToLower field) query then (true, maxInt (snd (summary ws)) wx)
   else if Contains (ToLower field) query then (true, maxInt (snd (summary ws)) wc)
   else summary ws)
  = summary (ws ++ exactWeight wx query field ++ containsWeight wc query field).
Proof.
  intros Hw. unfold exactWeight, containsWeight.
  destruct (streq (ToLower field) query) eqn:Heq.
  - apply streq_true in Heq. rewrite Heq, Contains_refl.
    apply summary_hit; simpl; lia.
  - destruct (Contains (ToLower field) query).
    + apply summary_hit; simpl; lia.
    + simpl. now rewrite summary_nil_r.
Qed.

Lemma scoreName_weights (query serverName : string) :
  scoreName query serverName
  = summary (exactWeight 100 query serverName ++ containsWeight 50 query serverName).
Proof.
  unfold scoreName, exactWeight, containsWeight.
  destruct (streq (ToLower serverName) query) eqn:Heq.
  - apply streq_true in Heq. rewrite Heq, Contains_refl. reflexivity.
  - destruct (Contains (ToLower serverName) query); reflexivity.
Qed.

(** An empty field carries no weight for a query that is not empty. *)
Lemma empty_field_weights (query : string) (wx wc : Z) :
  query <> "" -> ToLower "" = "" ->
  exactWeight wx query "" = [] /\ containsWeight wc query "" = [].
Proof.
  intros Hq Hlow. unfold exactWeight, containsWeight. rewrite Hlow.
  rewrite Contains_empty by assumption.
  destruct (streq "" query) eqn:E; [|easy].
  apply streq_true in E. congruence.
Qed.

Lemma scoreTitle_weights (query : string) (server : Server) (ws : list Z) :
  query <> "" -> ToLower "" = "" ->
  scoreTitle query server (summary ws)
  = summary (ws ++ exactWeight 97 query (Title server)
                ++ containsWeight 47 query (Title server)).
Proof.
  intros Hq Hlow. unfold scoreTitle.
  destruct (streq (Title server) "") eqn:E; simpl.
  - apply streq_true in E. rewrite E.
    destruct (empty_field_weights query 97 47 Hq Hlow) as [-> ->].
    now rewrite summary_nil_r.
  - apply exact_contains_stage. lia.
Qed.

Lemma scoreDescription_weights (query : string) (server : Server) (ws : list Z) :
  query <> "" -> ToLower "" = "" ->
  scoreDescription query server (summary ws)
  = summary (ws ++ exactWeight 95 query (Description server)
                ++ containsWeight 45 query (Description server)).
Proof.
  intros Hq Hlow. unfold scoreDescription.
  destruct (streq (Description server) "") eqn:E; simpl.
  - apply streq_true in E. rewrite E.
    destruct (empty_field_weights query 95 45 Hq Hlow) as [-> ->].
    now rewrite summary_nil_r.
  - apply exact_contains_stage. lia.
Qed.

Lemma scoreTool_weights (query : string) (tool : Tool) (ws : list Z) :
  scoreTool query (summary ws) tool = summary (ws ++ toolWeights query tool).
Proof.
  unfold scoreTool, toolWeights, exactWeight, containsWeight.
  destruct (streq (ToLower (tool_Name tool)) query) eqn:Heq.
  - apply streq_true in Heq. rewrite Heq, Contains_refl.
    apply summary_hit; [lia|].
    destruct (Contains _ query); simpl; lia.
  - destruct (Contains (ToLower (tool_Name tool)) query).
    + apply summary_hit; [lia|]. destruct (Contains _ query); simpl; lia.
    + destruct (Contains (ToLower (tool_Description tool)) query).
      * apply summary_hit; simpl; lia.
      * simpl. now rewrite summary_nil_r.
Qed.

Lemma scoreTools_weights (query : string) (tools : list Tool) (ws : list Z) :
  fold_left (scoreTool query) tools (summary ws)
  = summary (ws ++ flat_map (toolWeights query) tools).
Proof.
  revert ws. induction tools as [|tool tools IH]; intros ws; simpl.
  - now rewrite summary_nil_r.
  - rewrite scoreTool_weights, IH. now rewrite <- app_assoc.
Qed.

Lemma scoreImage_weights (query : string) (server : Server) (ws : list Z) :
  query <> "" -> ToLower "" = "" ->
  scoreImage query server (summary ws)
  = summary (ws ++ containsWeight 20 query (Image server)).
Proof.
  intros Hq Hlow. unfold scoreImage.
  destruct (streq (Image server) "") eqn:E; simpl.
  - apply streq_true in E. rewrite E.
    destruct (empty_field_weights query 0 20 Hq Hlow) as [_ ->].
    now rewrite summary_nil_r.
  - unfold containsWeight. destruct (Contains _ query).
    + apply summary_hit; simpl; lia.
    + now rewrite summary_nil_r.
Qed.

(** The pair computed for a server stands for the weights of its fields. *)
Lemma scoreServer_weights (query serverName : string) (server : Server) :
  query <> "" -> ToLower "" = "" ->
  scoreServer query serverName server = summary (fieldWeights query serverName server).
Proof.
  intros Hq Hlow. unfold scoreServer, fieldWeights.
  rewrite scoreName_weights, scoreTitle_weights, scoreDescription_weights by assumption.
  rewrite scoreTools_weights, scoreImage_weights by assumption.
  now rewrite <- !app_assoc.
Qed.

(** For any query, also the empty one that a prompt of spaces leaves, the
    pair computed for a server stands for the weights of the fields that
    the server has. *)
Lemma scoreServer_present_weights (query serverName : string) (server : Server) :
  scoreServer query serverName server = summary (presentWeights query serverName server).
Proof.
  unfold scoreServer, presentWeights, present. rewrite scoreName_weights.
  assert (Ht : forall ws,
    scoreTitle query server (summary ws)
    = summary (ws ++ (if streq (Title server) "" then []
                      else exactWeight 97 query (Title server)
                           ++ containsWeight 47 query (Title server)))).
  { intros ws. unfold scoreTitle. destruct (streq (Title server) ""); simpl.
    - now rewrite summary_nil_r.
    - apply exact_contains_stage. lia. }
  assert (Hd : forall ws,
    scoreDescription query server (summary ws)
    = summary (ws ++ (if streq (Description server) "" then []
                      else exactWeight 95 query (Description server)
                           ++ containsWeight 45 query (Description server)))).
  { intros ws. unfold scoreDescription. destruct (streq (Description server) ""); simpl.
    - now rewrite summary_nil_r.
    - apply exact_contains_stage. lia. }
  assert (Hi : forall ws,
    scoreImage query server (summary ws)
    = summary (ws ++ (if streq (Image server) "" then []
                      else containsWeight 20 query (Image server)))).
  { intros ws. unfold scoreImage. destruct (streq (Image server) ""); simpl.
    - now rewrite summary_nil_r.
    - unfold containsWeight. destruct (Contains _ query).
      + apply summary_hit; simpl; lia.
      + now rewrite summary_nil_r. }
  rewrite Ht, Hd, scoreTools_weights, Hi.
  now rewrite <- !app_assoc.
Qed.

(** No weight of the table exceeds 100. *)
Lemma fieldWeights_le_100 (query serverName : string) (server : Server) :
  maxWeight (fieldWeights query serverName server) <= 100.
Proof.
  unfold fieldWeights, exactWeight, containsWeight.
  rewrite !maxWeight_app.
  assert (Htools : maxWeight (flat_map (toolWeights query) (Tools server)) <= 100).
  { induction (Tools server) as [|tool tools IH]; simpl; [lia|].
    rewrite maxWeight_app. unfold toolWeights at 1, exactWeight, containsWeight.
    rewrite !maxWeight_app.
    repeat match goal with |- context [if ?b then _ else _] => destruct b end;
      simpl; lia. }
  repeat match goal with |- context [if ?b then _ else _] => destruct b end;
    simpl; lia.
Qed.

(** The matches collected from a catalog, one server after the other. *)
Lemma collectMatches_app (query : string) (catalog catalog' : list (string * Server)) :
  collectMatches query (catalog ++ catalog')
  = collectMatches query catalog ++ collectMatches query catalog'.
Proof.
  unfold collectMatches.
  rewrite fold_left_app.
  generalize (fold_left
    (fun matches '(serverName, server) =>
       let '(match_, score) := scoreServer query serverName server in
       if match_ then matches ++ [mkServerMatch serverName server score] else matches)
    catalog []) as acc.
  induction catalog' as [|[n s] rest IH] using rev_ind; intros acc.
  - simpl. now rewrite app_nil_r.
  - rewrite !fold_left_app. simpl. rewrite IH.
    destruct (scoreServer query n s) as [[|] z]; [|reflexivity].
    now rewrite app_assoc.
Qed.

Lemma collectMatches_cons (query serverName : string) (server : Server)
    (catalog : list (string * Server)) :
  collectMatches query ((serverName, server) :: catalog)
  = (if fst (scoreServer query serverName server)
     then [mkServerMatch serverName server (snd (scoreServer query serverName server))]
     else []) ++ collectMatches query catalog.
Proof.
  change ((serverName, server) :: catalog) with ([(serverName, server)] ++ catalog).
  rewrite collectMatches_app. f_equal.
  unfold collectMatches. simpl.
  destruct (scoreServer query serverName server) as [[|] z]; reflexivity.
Qed.

(** C1. For a query that is not empty (and a lowering that keeps the empty
    string empty), the keyword strategy scores every catalog server with
    the maximum weight among its matching fields
    (name 100/50, title 97/47, description 95/45, tool name 90/40, tool
    description -/30, image -/20): the server is kept exactly when some
    field matches, every collected match carries that maximum, and a server
    whose name equals the query and whose description contains it scores
    100, not the sum 145. *)
Theorem keyword_score_is_max_weight (query : string) :
  query <> "" -> ToLower "" = "" ->
  (forall serverName server,
     scoreServer query serverName server
     = (anyWeight (fieldWeights query serverName server),
        maxWeight (fieldWeights query serverName server))) /\
  (forall catalog m,
     m ∈ collectMatches query catalog ->
     (Name m, match_Server m) ∈ catalog /\
     fieldWeights query (Name m) (match_Server m) <> [] /\
     Score m = maxWeight (fieldWeights query (Name m) (match_Server m))) /\
  (forall serverName server,
     ToLower serverName = query ->
     Contains (ToLower (Description server)) query = true ->
     snd (scoreServer query serverName server) = 100 /\
     snd (scoreServer query serverName server) <> 100 + 45).
Proof.
  intros Hq Hlow. split; [|split].
  - intros. now apply scoreServer_weights.
  - intros catalog. induction catalog as [|[n s] rest IH]; intros m Hm.
    + inversion Hm.
    + rewrite collectMatches_cons, scoreServer_weights in Hm by assumption.
      simpl in Hm. apply elem_of_app in Hm as [Hm|Hm].
      * destruct (fieldWeights query n s) eqn:Hw; simpl in Hm; [inversion Hm|].
        apply list_elem_of_singleton in Hm. subst m. simpl. rewrite Hw.
        split; [left|]. easy.
      * destruct (IH m Hm) as (Hin & Hne & Hs). split; [now right|easy].
  - intros serverName server Hname Hdesc.
    enough (snd (scoreServer query serverName server) = 100) as -> by (split; lia).
    rewrite scoreServer_weights by assumption. simpl.
    pose proof (fieldWeights_le_100 query serverName server) as Hle.
    assert (100 <= maxWeight (fieldWeights query serverName server)); [|lia].
    unfold fieldWeights, exactWeight at 1.
    rewrite Hname. unfold streq. rewrite bool_decide_eq_true_2 by reflexivity.
    simpl. fold (maxWeight (containsWeight 50 query serverName ++
      (exactWeight 97 query (Title server) ++ containsWeight 47 query (Title server)) ++
      (exactWeight 95 query (Description server) ++
       containsWeight 45 query (Description server)) ++
      flat_map (toolWeights query) (Tools server) ++
      containsWeight 20 query (Image server))). lia.
Qed.

(** ** The sort of the matches *)

Lemma bubbleMax_length (x : ServerMatch) (rest : list ServerMatch) :
  length (snd (bubbleMax x rest)) = length rest.
Proof.
  revert x. induction rest as [|y rest IH]; intros x; simpl; [reflexivity|].
  destruct (Score x <? Score y).
  - specialize (IH y). destruct (bubbleMax y rest). simpl in *. now rewrite IH.
  - specialize (IH x). destruct (bubbleMax x rest). simpl in *. now rewrite IH.
Qed.

Lemma bubbleMax_perm (x : ServerMatch) (rest : list ServerMatch) :
  fst (bubbleMax x rest) :: snd (bubbleMax x rest) ≡ₚ x :: rest.
Proof.
  revert x. induction rest as [|y rest IH]; intros x; simpl; [reflexivity|].
  destruct (Score x <? Score y).
  - specialize (IH y). destruct (bubbleMax y rest) as [m r]. simpl in *.
    rewrite (Permutation_swap x m r). now rewrite IH.
  - specialize (IH x). destruct (bubbleMax x rest) as [m r]. simpl in *.
    rewrite (Permutation_swap y m r), IH. apply Permutation_swap.
Qed.

(** The element that a pass leaves in front has the highest score. *)
Lemma bubbleMax_max (x : ServerMatch) (rest : list ServerMatch) :
  Score x <= Score (fst (bubbleMax x rest)) /\
  Forall (byScore (fst (bubbleMax x rest))) (snd (bubbleMax x rest)).
Proof.
  revert x. induction rest as [|y rest IH]; intros x; simpl.
  - split; [lia|constructor].
  - destruct (Score x <? Score y) eqn:E.
    + apply Z.ltb_lt in E. destruct (IH y) as [Hy Hall].
      destruct (bubbleMax y rest) as [m r]. simpl in *.
      split; [lia|]. constructor; [unfold byScore; lia|assumption].
    + apply Z.ltb_ge in E. destruct (IH x) as [Hx Hall].
      destruct (bubbleMax x rest) as [m r]. simpl in *.
      split; [lia|]. constructor; [unfold byScore; lia|assumption].
Qed.

(** A pass over a slice whose front already has the highest score swaps
    nothing. *)
Lemma bubbleMax_sorted (x : ServerMatch) (rest : list ServerMatch) :
  Forall (byScore x) rest -> bubbleMax x rest = (x, rest).
Proof.
  induction 1 as [|y rest Hy Hall IH]; simpl; [reflexivity|].
  unfold byScore in Hy.
  destruct (Score x <? Score y) eqn:E; [apply Z.ltb_lt in E; lia|].
  now rewrite IH.
Qed.

Lemma exchangeSort_perm (k : nat) (l : list ServerMatch) : exchangeSort k l ≡ₚ l.
Proof.
  revert l. induction k as [|k IH]; intros l; [destruct l; reflexivity|].
  destruct l as [|x rest]; [reflexivity|]. simpl.
  pose proof (bubbleMax_perm x rest) as Hp.
  destruct (bubbleMax x rest) as [m r]. simpl in Hp.
  now rewrite IH.
Qed.

Lemma exchangeSort_sorted (k : nat) (l : list ServerMatch) :
  (length l <= S k)%nat -> StronglySorted byScore (exchangeSort k l).
Proof.
  revert l. induction k as [|k IH]; intros l Hlen.
  - destruct l as [|x [|y l]]; simpl in *; try lia; repeat constructor.
  - destruct l as [|x rest]; [constructor|]. simpl.
    pose proof (bubbleMax_max x rest) as [_ Hall].
    pose proof (bubbleMax_length x rest) as Hl.
    destruct (bubbleMax x rest) as [m r]. simpl in *.
    constructor.
    + apply IH. lia.
    + now rewrite exchangeSort_perm.
Qed.

Lemma exchangeSort_id (k : nat) (l : list ServerMatch) :
  StronglySorted byScore l -> exchangeSort k l = l.
Proof.
  revert l. induction k as [|k IH]; intros l Hs; [destruct l; reflexivity|].
  destruct l as [|x rest]; [reflexivity|]. simpl.
  inversion Hs as [|? ? Hrest Hall]; subst.
  rewrite bubbleMax_sorted by assumption. now rewrite IH.
Qed.

(** The inner loop from [j] on, with the slice split at [i] and [j]. *)
Lemma sortStep_fold (i : nat) (pre done rest : list ServerMatch) (x : ServerMatch) :
  length pre = i ->
  fold_left (sortStep i) (seq (i + 1 + length done) (length rest))
            (Some (pre ++ x :: done ++ rest))
  = Some (pre ++ fst (bubbleMax x rest) :: done ++ snd (bubbleMax x rest)).
Proof.
  intros Hi. revert x done.
  induction rest as [|y rest IH]; intros x done; simpl; [reflexivity|].
  assert (Hx : forall t, (pre ++ x :: t) !! i = Some x)
    by (intros t; now apply list_lookup_middle).
  assert (Hy : (pre ++ x :: done ++ y :: rest) !! (i + 1 + length done)%nat = Some y).
  { change (pre ++ x :: done ++ y :: rest) with (pre ++ (x :: done) ++ y :: rest).
    rewrite app_assoc. apply list_lookup_middle.
    rewrite length_app. simpl. lia. }
  rewrite Hx, Hy.
  replace (S (i + 1 + length done)) with (i + 1 + length (done ++ [x]))%nat
    by (rewrite length_app; simpl; lia).
  destruct (Score x <? Score y).
  - unfold swap. rewrite Hx, Hy.
    assert (Hsw : <[(i + 1 + length done)%nat:=x]> (<[i:=y]> (pre ++ x :: done ++ y :: rest))
                  = pre ++ y :: (done ++ [x]) ++ rest).
    { replace i with (length pre + 0)%nat at 2 by lia.
      rewrite insert_app_r. simpl.
      replace (i + 1 + length done)%nat with (length pre + S (length done + 0))%nat by lia.
      rewrite insert_app_r. simpl. rewrite insert_app_r. simpl.
      now rewrite <- app_assoc. }
    rewrite Hsw, IH.
    destruct (bubbleMax y rest) as [m r]. simpl. now rewrite <- app_assoc.
  - change (pre ++ x :: done ++ y :: rest) with (pre ++ x :: done ++ [y] ++ rest).
    rewrite (app_assoc done [y] rest).
    replace (length (done ++ [x])) with (length (done ++ [y]))
      by (rewrite !length_app; reflexivity).
    rewrite IH.
    destruct (bubbleMax x rest) as [m r]. simpl. now rewrite <- app_assoc.
Qed.

Lemma sortPass_spec (n i : nat) (pre rest : list ServerMatch) (x : ServerMatch) :
  length pre = i -> n = (i + 1 + length rest)%nat ->
  sortPass n (Some (pre ++ x :: rest)) i
  = Some (pre ++ fst (bubbleMax x rest) :: snd (bubbleMax x rest)).
Proof.
  intros Hi Hn. unfold sortPass.
  replace (n - (i + 1))%nat with (length rest) by lia.
  pose proof (sortStep_fold i pre [] rest x Hi) as H. simpl in H.
  now replace (i + 1 + 0)%nat with (i + 1)%nat in H by lia.
Qed.

Lemma sortPasses_spec (n k i : nat) (pre l : list ServerMatch) :
  length pre = i -> n = (i + length l)%nat -> (k < length l \/ k = 0)%nat ->
  fold_left (sortPass n) (seq i k) (Some (pre ++ l)) = Some (pre ++ exchangeSort k l).
Proof.
  revert i pre l. induction k as [|k IH]; intros i pre l Hi Hn Hk.
  - simpl. now destruct l.
  - destruct l as [|x rest]; [simpl in Hk; lia|].
    simpl seq. simpl fold_left.
    rewrite (sortPass_spec n i pre rest x) by (simpl in Hn; lia).
    pose proof (bubbleMax_length x rest) as Hl. simpl exchangeSort.
    destruct (bubbleMax x rest) as [m r]. simpl in *.
    change (pre ++ m :: r) with (pre ++ [m] ++ r). rewrite app_assoc.
    rewrite (IH (S i) (pre ++ [m]) r).
    + now rewrite <- app_assoc.
    + rewrite length_app. simpl. lia.
    + lia.
    + lia.
Qed.

(** The sort never indexes out of range, and it is the pass-by-pass sort. *)
Lemma sortMatches_spec (matches : list ServerMatch) :
  sortMatches matches = Some (exchangeSort (length matches - 1) matches).
Proof.
  unfold sortMatches.
  apply (sortPasses_spec (length matches) (length matches - 1) 0 [] matches);
    [reflexivity|reflexivity|lia].
Qed.

Lemma formatMatches_map (matches : list ServerMatch) :
  formatMatches matches = map (fun m => serverInfoOf (Name m) (match_Server m)) matches.
Proof.
  unfold formatMatches.
  enough (forall acc, fold_left
            (fun results match_ =>
               results ++ [serverInfoOf (Name match_) (match_Server match_)])
            matches acc
          = acc ++ map (fun m => serverInfoOf (Name m) (match_Server m)) matches)
    as H by apply (H []).
  induction matches as [|m matches IH]; intros acc; simpl.
  - now rewrite app_nil_r.
  - rewrite IH. now rewrite <- app_assoc.
Qed.

Lemma limitMatches_take (limit : Z) (matches : list ServerMatch) :
  0 < limit -> limitMatches limit matches = take (Z.to_nat limit) matches.
Proof.
  intros Hpos. unfold limitMatches.
  destruct (limit <? Z.of_nat (length matches)) eqn:E; [reflexivity|].
  apply Z.ltb_ge in E. symmetry. apply take_ge. lia.
Qed.

Lemma normalizeLimit_pos (limit : Z) : 0 < normalizeLimit limit.
Proof. unfold normalizeLimit. destruct (limit <=? 0) eqn:E; [lia|]. apply Z.leb_gt in E. lia. Qed.

Lemma StronglySorted_take (n : nat) (l : list ServerMatch) :
  StronglySorted byScore l -> StronglySorted byScore (take n l).
Proof.
  intros Hs. revert n. induction Hs as [|x l Hs IH Hall]; intros [|n]; simpl;
    try constructor; [apply IH|now apply Forall_take].
Qed.

(** What the keyword handler answers once the prompt is not empty. *)
Lemma keywordResponse_ranked (configuration : Configuration) (params : FindServersParams) :
  Prompt params <> "" ->
  let sorted :=
    exchangeSort
      (length (collectMatches (ToLower (TrimSpace (Prompt params))) (servers configuration)) - 1)
      (collectMatches (ToLower (TrimSpace (Prompt params))) (servers configuration)) in
  let matches := limitMatches (normalizeLimit (Limit params)) sorted in
  rankedMatches configuration params = Some matches /\
  keywordResponse configuration params
  = ([], Returned {| resp_prompt := Prompt params;
                     resp_total_matches := Z.of_nat (length (formatMatches matches));
                     resp_servers := formatMatches matches |}).
Proof.
  intros Hp. unfold keywordResponse, rankedMatches.
  rewrite sortMatches_spec.
  apply streq_false in Hp. rewrite Hp. split; reflexivity.
Qed.

(** C2, amended. For a prompt that is not empty the sort of the keyword
    strategy ends without an index out of range, the matches it returns are
    the collected matches rearranged into non-increasing score and cut at
    the limit, and they are formatted in that order. Matches of equal score
    keep the order of the catalog iteration when the collected matches were
    already in non-increasing score order; nothing is promised otherwise. *)
Theorem keyword_matches_sorted (configuration : Configuration) (params : FindServersParams) :
  Prompt params <> "" ->
  let encounter :=
    collectMatches (ToLower (TrimSpace (Prompt params))) (servers configuration) in
  exists sorted,
    sortMatches encounter = Some sorted /\
    sorted ≡ₚ encounter /\
    StronglySorted byScore sorted /\
    (StronglySorted byScore encounter -> sorted = encounter) /\
    let matches := take (Z.to_nat (normalizeLimit (Limit params))) sorted in
    rankedMatches configuration params = Some matches /\
    StronglySorted byScore matches /\
    keywordResponse configuration params
    = ([], Returned {| resp_prompt := Prompt params;
                       resp_total_matches := Z.of_nat (length matches);
                       resp_servers :=
                         map (fun m => serverInfoOf (Name m) (match_Server m)) matches |}).
Proof.
  intros Hp encounter.
  exists (exchangeSort (length encounter - 1) encounter).
  split; [apply sortMatches_spec|].
  split; [apply exchangeSort_perm|].
  assert (Hs : StronglySorted byScore (exchangeSort (length encounter - 1) encounter))
    by (apply exchangeSort_sorted; lia).
  split; [exact Hs|].
  split; [apply exchangeSort_id|].
  destruct (keywordResponse_ranked configuration params Hp) as [Hr Hk].
  fold encounter in Hr, Hk.
  rewrite limitMatches_take in Hr, Hk by apply normalizeLimit_pos.
  rewrite formatMatches_map, length_map in Hk.
  split; [exact Hr|]. split; [now apply StronglySorted_take|exact Hk].
Qed.

(** ** Reconciliation of search hits *)

Lemma reconcileServer_step (g : Gateway) (acc : list ServerInfo * list logline)
    (result : SearchResult) :
  reconcileServer g acc result
  = (fst acc ++ option_list (serverOf g result),
     snd acc ++ option_list (serverWarning g result)).
Proof.
  destruct acc as [servers logs]. unfold reconcileServer, serverOf, serverWarning. simpl.
  destruct (Metadata result !! "name") as [v|]; [destruct v|];
    simpl; rewrite ?app_nil_r; try reflexivity.
  destruct (Find (configuration g) s); simpl; now rewrite ?app_nil_r.
Qed.

Lemma reconcileTool_step (g : Gateway) (acc : list ToolInfo * list logline)
    (result : SearchResult) :
  reconcileTool g acc result
  = (fst acc ++ option_list (toolOf g result),
     snd acc ++ option_list (toolWarning g result)).
Proof.
  destruct acc as [tools logs]. unfold reconcileTool, toolOf, toolWarning. simpl.
  destruct (Metadata result !! "tool") as [v|]; simpl; rewrite ?app_nil_r; [|reflexivity].
  destruct (streq (extractToolName v) ""); simpl; rewrite ?app_nil_r; [reflexivity|].
  destruct (toolRegistrations g !! extractToolName v); simpl; now rewrite ?app_nil_r.
Qed.

(** A loop that appends to two slices is the pair of what each hit adds. *)
Lemma fold_left_two_slices {A B C : Type}
    (step : list A * list B -> C -> list A * list B)
    (item : C -> option A) (line : C -> option B) :
  (forall acc r,
     step acc r = (fst acc ++ option_list (item r), snd acc ++ option_list (line r))) ->
  forall results acc,
    fold_left step results acc
    = (fst acc ++ omap item results, snd acc ++ omap line results).
Proof.
  intros Hstep results. induction results as [|r results IH]; intros [a b]; simpl.
  - now rewrite !app_nil_r.
  - rewrite Hstep, IH. simpl.
    destruct (item r), (line r); simpl; now rewrite <- ?app_assoc, ?app_nil_r.
Qed.

Lemma reconcileServers_omap (g : Gateway) (results : list SearchResult) :
  reconcileServers g results = (omap (serverOf g) results, omap (serverWarning g) results).
Proof.
  unfold reconcileServers.
  now rewrite (fold_left_two_slices _ _ _ (reconcileServer_step g)).
Qed.

Lemma reconcileTools_omap (g : Gateway) (results : list SearchResult) :
  reconcileTools g results = (omap (toolOf g) results, omap (toolWarning g) results).
Proof.
  unfold reconcileTools.
  now rewrite (fold_left_two_slices _ _ _ (reconcileTool_step g)).
Qed.

(** A hit gives a server or a warning, never both and never neither. *)
Lemma serverOf_or_warning (g : Gateway) (result : SearchResult) :
  (is_Some (serverOf g result) /\ serverWarning g result = None) \/
  (serverOf g result = None /\ exists w, serverWarning g result = Some w /\ isWarning w).
Proof.
  unfold serverOf, serverWarning, isWarning.
  destruct (Metadata result !! "name") as [v|]; [destruct v|];
    try (right; split; [reflexivity|eexists; split; [reflexivity|do 2 eexists; reflexivity]]).
  destruct (Find (configuration g) s).
  - left. split; [eexists|]; reflexivity.
  - right; split; [reflexivity|eexists; split; [reflexivity|do 2 eexists; reflexivity]].
Qed.

Lemma toolOf_or_warning (g : Gateway) (result : SearchResult) :
  (is_Some (toolOf g result) /\ toolWarning g result = None) \/
  (toolOf g result = None /\ exists w, toolWarning g result = Some w /\ isWarning w).
Proof.
  unfold toolOf, toolWarning, isWarning.
  destruct (Metadata result !! "tool") as [v|];
    [|right; split; [reflexivity|eexists; split; [reflexivity|do 2 eexists; reflexivity]]].
  destruct (streq (extractToolName v) "");
    [right; split; [reflexivity|eexists; split; [reflexivity|do 2 eexists; reflexivity]]|].
  destruct (toolRegistrations g !! extractToolName v); simpl.
  - left. split; [eexists|]; reflexivity.
  - right; split; [reflexivity|eexists; split; [reflexivity|do 2 eexists; reflexivity]].
Qed.

Lemma droppedServerHit_None (g : Gateway) (result : SearchResult) :
  droppedServerHit g result -> serverOf g result = None.
Proof.
  unfold droppedServerHit, serverOf.
  intros [H|[(v & H & Hv)|(s & H & Hf)]]; rewrite H; [reflexivity| |now rewrite Hf].
  destruct v; try reflexivity. now destruct (Hv s).
Qed.

Lemma droppedToolHit_None (g : Gateway) (result : SearchResult) :
  droppedToolHit g result -> toolOf g result = None.
Proof.
  unfold droppedToolHit, toolNameField, toolOf, extractToolName.
  destruct (Metadata result !! "tool") as [v|]; [|reflexivity].
  destruct v; try reflexivity.
  - intros [H|[(v & H & Hv)|(s' & H & Hf)]]; try discriminate.
    + inversion H; subst. now destruct (Hv s).
    + inversion H; subst. destruct (streq s' ""); [reflexivity|]. now rewrite Hf.
  - intros [H|[(v & H & Hv)|(s' & H & Hf)]]; rewrite H; try reflexivity.
    + destruct v; try reflexivity. now destruct (Hv s).
    + destruct (streq s' ""); [reflexivity|]. now rewrite Hf.
Qed.

(** ** The search call *)

(** The arguments that [SearchVectors] sends for given options. *)
Lemma SearchVectors_cases (c : VectorDBClient) (vector : list float64) (o : SearchOptions) :
  let args := mkSearchArgs vector (CollectionName o) (ExcludeCollections o) (opt_Limit o) in
  (exists err, SearchVectors c vector (Some o) = ([], Failed err)) \/
  (exists err, SearchVectors c vector (Some o) = ([EvCallTool "search" args], Failed err)) \/
  (exists reply,
     session_CallTool "search" args = inr reply /\
     json_Unmarshal_results (firstText (result_Content reply))
     = inr (match json_Unmarshal_results (firstText (result_Content reply)) with
            | inr results => results
            | inl _ => []
            end) /\
     SearchVectors c vector (Some o)
     = ([EvCallTool "search" args],
        Returned (match json_Unmarshal_results (firstText (result_Content reply)) with
                  | inr results => results
                  | inl _ => []
                  end))).
Proof.
  intros args. unfold SearchVectors, CallTool. fold args.
  destruct (session c); [|left; eexists; reflexivity].
  right. simpl.
  destruct (session_CallTool "search" args) as [err|reply]; simpl;
    [left; eexists; reflexivity|].
  destruct (IsError reply); [left; eexists; reflexivity|].
  destruct (Z.of_nat (length (result_Content reply)) =? 0); [left; eexists; reflexivity|].
  destruct (streq (firstText (result_Content reply)) ""); [left; eexists; reflexivity|].
  destruct (json_Unmarshal_results (firstText (result_Content reply))) as [err|results] eqn:E;
    simpl; [left; eexists; reflexivity|].
  right. exists reply. rewrite E. repeat split.
Qed.

(** A search that returns, returns what the service replied, after one
    call of the search tool. *)
Lemma SearchVectors_returned (c : VectorDBClient) (vector : list float64) (o : SearchOptions)
    (tr : list event) (results : list SearchResult) :
  SearchVectors c vector (Some o) = (tr, Returned results) ->
  let args := mkSearchArgs vector (CollectionName o) (ExcludeCollections o) (opt_Limit o) in
  tr = [EvCallTool "search" args] /\
  exists reply,
    session_CallTool "search" args = inr reply /\
    json_Unmarshal_results (firstText (result_Content reply)) = inr results.
Proof.
  intros H args.
  destruct (SearchVectors_cases c vector o) as [(err & E)|[(err & E)|(reply & Hc & Hu & E)]];
    fold args in E; rewrite E in H; try discriminate.
  inversion H; subst. split; [reflexivity|]. exists reply. split; assumption.
Qed.

Lemma SearchVectors_limit (c : VectorDBClient) (vector : list float64) (o : SearchOptions)
    (tr : list event) (results : list SearchResult) :
  honoursLimit -> 0 < opt_Limit o ->
  SearchVectors c vector (Some o) = (tr, Returned results) ->
  Z.of_nat (length results) <= opt_Limit o.
Proof.
  intros Hh Hpos H. apply SearchVectors_returned in H as (_ & reply & Hc & Hu).
  now apply (Hh _ _ _ Hc Hu).
Qed.

(** The tool calls of a search: none, or the one search call. *)
Lemma SearchVectors_calls (c : VectorDBClient) (vector : list float64) (o : SearchOptions) :
  let args := mkSearchArgs vector (CollectionName o) (ExcludeCollections o) (opt_Limit o) in
  toolCalls (fst (SearchVectors c vector (Some o))) = [] \/
  toolCalls (fst (SearchVectors c vector (Some o))) = [("search", args)].
Proof.
  intros args.
  destruct (SearchVectors_cases c vector o) as [(err & E)|[(err & E)|(reply & _ & _ & E)]];
    fold args in E; rewrite E; simpl; auto.
Qed.

Lemma toolCalls_app (tr tr' : list event) : toolCalls (tr ++ tr') = toolCalls tr ++ toolCalls tr'.
Proof. apply omap_app. Qed.

Lemma toolCalls_logs (lines : list logline) : toolCalls (map EvLog lines) = [].
Proof. induction lines; simpl; auto. Qed.

Lemma logLines_logs (lines : list logline) : logLines (map EvLog lines) = lines.
Proof. induction lines; simpl; [reflexivity|]. unfold logLines in *. simpl. now f_equal. Qed.

(** ** The discovery calls, step by step *)

Lemma findServersByEmbedding_discover (g : Gateway) (query : string) (limit : Z) :
  findServersByEmbedding g query limit
  = discover g query (mkSearchOptions serverCollection [] limit) (reconcileServers g).
Proof. reflexivity. Qed.

Lemma findToolsByEmbedding_discover (g : Gateway) (prompt : string) :
  findToolsByEmbedding g prompt
  = discover g prompt (mkSearchOptions "" [serverCollection] 5) (reconcileTools g).
Proof. reflexivity. Qed.

(** A discovery call fails before reconciliation, or returns what
    reconciliation made of the search results. *)
Lemma discover_cases {A} (g : Gateway) (text : string) (o : SearchOptions)
    (reconcile : list SearchResult -> list A * list logline) :
  (exists tr err,
     discover g text o reconcile = (tr, Failed err) /\
     logLines tr = [] /\
     (toolCalls tr = [] \/
      exists v, toolCalls tr
                = [("search", mkSearchArgs v (CollectionName o) (ExcludeCollections o)
                                (opt_Limit o))])) \/
  (exists client v results,
     embeddingsClient g = Some client /\
     generateEmbedding text = inr v /\
     SearchVectors client v (Some o)
     = ([EvCallTool "search" (mkSearchArgs v (CollectionName o) (ExcludeCollections o)
                                (opt_Limit o))],
        Returned results) /\
     discover g text o reconcile
     = (EvEmbedding text
          :: EvCallTool "search" (mkSearchArgs v (CollectionName o) (ExcludeCollections o)
                                    (opt_Limit o))
          :: map EvLog (snd (reconcile results)),
        Returned (fst (reconcile results)))).
Proof.
  unfold discover.
  destruct (embeddingsClient g) as [client|];
    [|left; do 2 eexists; split; [reflexivity|split; [reflexivity|now left]]].
  unfold embed. simpl.
  destruct (generateEmbedding text) as [err|v]; simpl;
    [left; do 2 eexists; split; [reflexivity|split; [reflexivity|now left]]|].
  destruct (SearchVectors_cases client v o) as [(err & E)|[(err & E)|(reply & _ & _ & E)]];
    rewrite E; simpl.
  - left. do 2 eexists. split; [reflexivity|split; [reflexivity|now left]].
  - left. do 2 eexists. split; [reflexivity|split; [reflexivity|right; eexists; reflexivity]].
  - right. exists client, v. eexists. repeat split. exact E.
Qed.

(** The tool calls of a discovery call: none, or one search with the
    options of the call. *)
Lemma discover_calls {A} (g : Gateway) (text : string) (o : SearchOptions)
    (reconcile : list SearchResult -> list A * list logline) :
  Forall (fun call =>
            fst call = "search" /\
            args_CollectionName (snd call) = CollectionName o /\
            args_ExcludeCollections (snd call) = ExcludeCollections o /\
            args_Limit (snd call) = opt_Limit o)
         (toolCalls (fst (discover g text o reconcile))).
Proof.
  destruct (discover_cases g text o reconcile)
    as [(tr & err & E & _ & [Hc|(v & Hc)])|(client & v & results & _ & _ & _ & E)];
    rewrite E; unfold fst.
  - rewrite Hc. constructor.
  - rewrite Hc. repeat constructor.
  - match goal with
    | |- Forall _ (toolCalls (?e :: ?x :: ?l)) =>
        change (e :: x :: l) with ([e; x] ++ l)
    end.
    rewrite toolCalls_app, toolCalls_logs. simpl. repeat constructor.
Qed.

Lemma discover_run {A} (g : Gateway) (text : string) (o : SearchOptions)
    (reconcile : list SearchResult -> list A * list logline)
    (client : VectorDBClient) (v : list float64) (tr : list event)
    (results : list SearchResult) :
  embeddingsClient g = Some client ->
  generateEmbedding text = inr v ->
  SearchVectors client v (Some o) = (tr, Returned results) ->
  discover g text o reconcile
  = (EvEmbedding text :: tr ++ map EvLog (snd (reconcile results)),
     Returned (fst (reconcile results))).
Proof.
  intros Hc Hv Hs. unfold discover, embed. rewrite Hc. simpl. rewrite Hv. simpl.
  rewrite Hs. reflexivity.
Qed.

(** ** Traces of the handlers *)

Lemma bind_trace {A B} (m : M A) (k : A -> M B) :
  fst (bind m k)
  = fst m ++ match snd m with
             | Returned v => fst (k v)
             | _ => []
             end.
Proof.
  destruct m as [tr [v|err|]]; simpl; rewrite ?app_nil_r; try reflexivity.
  now destruct (k v).
Qed.

Lemma orWrap_trace {A} (prefix : string) (m : M A) : fst (orWrap prefix m) = fst m.
Proof. now destruct m as [tr [v|err|]]. Qed.

Lemma orWrap_returned {A} (prefix : string) (m : M A) (tr : list event) (v : A) :
  orWrap prefix m = (tr, Returned v) <-> m = (tr, Returned v).
Proof. destruct m as [tr' [v'|err|]]; simpl; split; intros H; congruence. Qed.

Lemma lift_trace {A} (r : error + A) : fst (lift r) = [].
Proof. now destruct r. Qed.

(** Decoding the arguments has no effect on the outside. *)
Lemma parseFindServers_cases (req : CallToolRequest) :
  (exists err, parseFindServers req = ([], Failed err)) \/
  (exists arguments paramsBytes params,
     Arguments req = Some arguments /\
     json_Marshal arguments = inr paramsBytes /\
     json_Unmarshal_servers paramsBytes = inr params /\
     parseFindServers req = ([], Returned params)).
Proof.
  unfold parseFindServers. destruct (Arguments req) as [a|] eqn:Ea; [|left; eexists; reflexivity].
  destruct (json_Marshal a) as [err|b] eqn:Eb; simpl; [left; eexists; reflexivity|].
  destruct (json_Unmarshal_servers b) as [err|p] eqn:E; simpl.
  - left. eexists. reflexivity.
  - right. exists a, b, p. repeat split; assumption || reflexivity.
Qed.

Lemma parseFindTools_cases (req : CallToolRequest) :
  (exists err, parseFindTools req = ([], Failed err)) \/
  (exists arguments paramsBytes params,
     Arguments req = Some arguments /\
     json_Marshal arguments = inr paramsBytes /\
     json_Unmarshal_tools paramsBytes = inr params /\
     parseFindTools req = ([], Returned params)).
Proof.
  unfold parseFindTools. destruct (Arguments req) as [a|] eqn:Ea; [|left; eexists; reflexivity].
  destruct (json_Marshal a) as [err|b] eqn:Eb; simpl; [left; eexists; reflexivity|].
  destruct (json_Unmarshal_tools b) as [err|p] eqn:E; simpl.
  - left. eexists. reflexivity.
  - right. exists a, b, p. repeat split; assumption || reflexivity.
Qed.

Lemma respond_cases (response : FindServersResponse) :
  (exists err, respond response = ([], Failed err)) \/
  (exists text, json_Marshal_response response = inr text /\
                respond response = ([], Returned (mkHandlerResult text))).
Proof.
  unfold respond. destruct (json_Marshal_response response) as [err|text]; simpl.
  - left. eexists. reflexivity.
  - right. exists text. split; reflexivity.
Qed.

Lemma embeddingResponse_trace (g : Gateway) (params : FindServersParams) :
  fst (embeddingResponse g params) = [] \/
  fst (embeddingResponse g params)
  = fst (findServersByEmbedding g (Prompt params) (normalizeLimit (Limit params))).
Proof.
  unfold embeddingResponse. destruct (streq (Prompt params) ""); [now left|].
  right. rewrite bind_trace, orWrap_trace.
  destruct (snd (orWrap _ _)); simpl; now rewrite app_nil_r.
Qed.

Lemma findToolsResponse_trace (g : Gateway) (params : FindToolsParams) :
  fst (findToolsResponse g params) = [] \/
  fst (findToolsResponse g params) = fst (findToolsByEmbedding g (tools_Prompt params)).
Proof.
  unfold findToolsResponse. destruct (streq (tools_Prompt params) ""); [now left|].
  right. apply orWrap_trace.
Qed.

(** The trace of a handler is the trace of its middle part. *)
Lemma embeddingStrategy_trace (g : Gateway) (req : CallToolRequest) :
  fst (embeddingStrategy g req) = [] \/
  exists params,
    parseFindServers req = ([], Returned params) /\
    fst (embeddingStrategy g req) = fst (embeddingResponse g params).
Proof.
  unfold embeddingStrategy.
  destruct (parseFindServers_cases req) as [(err & E)|(a & b & p & _ & _ & _ & E)];
    rewrite E; [now left|].
  right. exists p. split; [reflexivity|]. simpl.
  destruct (embeddingResponse g p) as [tr [resp|err|]]; simpl; try reflexivity.
  destruct (respond_cases resp) as [(err & E')|(text & _ & E')]; rewrite E'; simpl;
    now rewrite app_nil_r.
Qed.

Lemma findToolsHandler_trace (g : Gateway) (req : CallToolRequest) :
  fst (findToolsHandler g req) = [] \/
  exists params,
    parseFindTools req = ([], Returned params) /\
    fst (findToolsHandler g req) = fst (findToolsResponse g params).
Proof.
  unfold findToolsHandler.
  destruct (parseFindTools_cases req) as [(err & E)|(a & b & p & _ & _ & _ & E)];
    rewrite E; [now left|].
  right. exists p. split; [reflexivity|]. simpl.
  destruct (findToolsResponse g p) as [tr [tools|err|]]; simpl; try reflexivity.
  destruct (json_MarshalIndent_tools tools); simpl; now rewrite app_nil_r.
Qed.

Lemma keywordStrategy_trace (configuration : Configuration) (req : CallToolRequest) :
  fst (keywordStrategy configuration req) = [].
Proof.
  unfold keywordStrategy.
  destruct (parseFindServers_cases req) as [(err & E)|(a & b & p & _ & _ & _ & E)];
    rewrite E; [reflexivity|]. simpl.
  unfold keywordResponse.
  destruct (streq (Prompt p) ""); [reflexivity|].
  destruct (rankedMatches configuration p); [|reflexivity]. simpl.
  match goal with |- context [respond ?r] =>
    destruct (respond_cases r) as [(err & E')|(text & _ & E')]; rewrite E' end;
    reflexivity.
Qed.

(** ** Dropped hits *)

Lemma omap_middle_None {A B} (f : A -> option B) (pre post : list A) (x : A) :
  f x = None -> omap f (pre ++ x :: post) = omap f (pre ++ post).
Proof. intros H. rewrite !omap_app. simpl. now rewrite H. Qed.

Lemma omap_middle_Some {A B} (f : A -> option B) (pre post : list A) (x : A) (y : B) :
  f x = Some y -> omap f (pre ++ x :: post) = omap f pre ++ y :: omap f post.
Proof. intros H. rewrite !omap_app. simpl. now rewrite H. Qed.

(** C3. In the reconciliation of both discovery paths a search hit whose
    metadata lacks a name field, whose name is not a string, or whose name
    does not resolve (in the catalog for servers, in the tool registry for
    tools) is skipped with one warning: the result is the one obtained
    without that hit, the hits before and after it are processed as they
    would be alone, and a discovery call whose search returned such a hit
    returns that result instead of failing. *)
Theorem dropped_hits_are_skipped (g : Gateway) (pre post : list SearchResult)
    (hit : SearchResult) :
  (droppedServerHit g hit ->
   (exists w,
      isWarning w /\
      reconcileServers g (pre ++ hit :: post)
      = (fst (reconcileServers g (pre ++ post)),
         snd (reconcileServers g pre) ++ w :: snd (reconcileServers g post))) /\
   fst (reconcileServers g (pre ++ post))
   = fst (reconcileServers g pre) ++ fst (reconcileServers g post) /\
   forall client query limit v tr,
     embeddingsClient g = Some client ->
     generateEmbedding query = inr v ->
     SearchVectors client v (Some (mkSearchOptions serverCollection [] limit))
     = (tr, Returned (pre ++ hit :: post)) ->
     snd (findServersByEmbedding g query limit)
     = Returned (fst (reconcileServers g (pre ++ post)))) /\
  (droppedToolHit g hit ->
   (exists w,
      isWarning w /\
      reconcileTools g (pre ++ hit :: post)
      = (fst (reconcileTools g (pre ++ post)),
         snd (reconcileTools g pre) ++ w :: snd (reconcileTools g post))) /\
   fst (reconcileTools g (pre ++ post))
   = fst (reconcileTools g pre) ++ fst (reconcileTools g post) /\
   forall client prompt v tr,
     embeddingsClient g = Some client ->
     generateEmbedding prompt = inr v ->
     SearchVectors client v (Some (mkSearchOptions "" [serverCollection] 5))
     = (tr, Returned (pre ++ hit :: post)) ->
     snd (findToolsByEmbedding g prompt)
     = Returned (fst (reconcileTools g (pre ++ post)))).
Proof.
  split; intros Hd.
  - pose proof (droppedServerHit_None g hit Hd) as Hn.
    destruct (serverOf_or_warning g hit) as [[[x Hx] _]|(_ & w & Hw & Hiw)]; [congruence|].
    rewrite !reconcileServers_omap. simpl. split; [|split].
    + exists w. split; [exact Hiw|].
      now rewrite (omap_middle_None _ _ _ _ Hn), (omap_middle_Some _ _ _ _ _ Hw).
    + apply omap_app.
    + intros client query limit v tr Hc Hv Hs.
      rewrite findServersByEmbedding_discover, (discover_run _ _ _ _ _ _ _ _ Hc Hv Hs).
      simpl. rewrite reconcileServers_omap. simpl.
      now rewrite (omap_middle_None _ _ _ _ Hn).
  - pose proof (droppedToolHit_None g hit Hd) as Hn.
    destruct (toolOf_or_warning g hit) as [[[x Hx] _]|(_ & w & Hw & Hiw)]; [congruence|].
    rewrite !reconcileTools_omap. simpl. split; [|split].
    + exists w. split; [exact Hiw|].
      now rewrite (omap_middle_None _ _ _ _ Hn), (omap_middle_Some _ _ _ _ _ Hw).
    + apply omap_app.
    + intros client prompt v tr Hc Hv Hs.
      rewrite findToolsByEmbedding_discover, (discover_run _ _ _ _ _ _ _ _ Hc Hv Hs).
      simpl. rewrite reconcileTools_omap. simpl.
      now rewrite (omap_middle_None _ _ _ _ Hn).
Qed.

(** ** Order of the surviving hits *)

Lemma omap_survivors {A B} (f : A -> option B) (l : list A) :
  Forall2 (fun x y => f x = Some y) (filter (fun x => is_Some (f x)) l) (omap f l).
Proof.
  induction l as [|x l IH]; simpl; [constructor|].
  rewrite filter_cons. destruct (f x) as [y|] eqn:E.
  - destruct (decide (is_Some (Some y))) as [_|Hn]; [|destruct Hn; eauto].
    constructor; assumption.
  - destruct (decide (is_Some None)) as [Hs|_]; [destruct Hs; discriminate|assumption].
Qed.

(** C8. In both embedding discovery paths the output lists the surviving
    hits in the order in which the search returned them: the output is,
    element by element, what the sublist of the hits that resolve
    contributes, nothing is reordered or sorted again, and a discovery call
    that returns, returns exactly that list for the hits of its search. *)
Theorem surviving_hits_keep_search_order (g : Gateway) (results : list SearchResult) :
  (filter (fun r => is_Some (serverOf g r)) results `sublist_of` results /\
   Forall2 (fun r info => serverOf g r = Some info)
           (filter (fun r => is_Some (serverOf g r)) results)
           (fst (reconcileServers g results)) /\
   forall query limit tr servers,
     findServersByEmbedding g query limit = (tr, Returned servers) ->
     exists client v hits,
       SearchVectors client v (Some (mkSearchOptions serverCollection [] limit))
       = ([EvCallTool "search" (mkSearchArgs v serverCollection [] limit)], Returned hits) /\
       servers = fst (reconcileServers g hits)) /\
  (filter (fun r => is_Some (toolOf g r)) results `sublist_of` results /\
   Forall2 (fun r info => toolOf g r = Some info)
           (filter (fun r => is_Some (toolOf g r)) results)
           (fst (reconcileTools g results)) /\
   forall prompt tr tools,
     findToolsByEmbedding g prompt = (tr, Returned tools) ->
     exists client v hits,
       SearchVectors client v (Some (mkSearchOptions "" [serverCollection] 5))
       = ([EvCallTool "search" (mkSearchArgs v "" [serverCollection] 5)], Returned hits) /\
       tools = fst (reconcileTools g hits)).
Proof.
  split; (split; [apply sublist_filter|split]).
  - rewrite reconcileServers_omap. apply omap_survivors.
  - intros query limit tr servers H. rewrite findServersByEmbedding_discover in H.
    destruct (discover_cases g query (mkSearchOptions serverCollection [] limit)
                (reconcileServers g))
      as [(tr' & err & E & _)|(client & v & hits & _ & _ & Hs & E)];
      rewrite E in H; [discriminate|].
    inversion H; subst. exists client, v, hits. split; [exact Hs|reflexivity].
  - rewrite reconcileTools_omap. apply omap_survivors.
  - intros prompt tr tools H. rewrite findToolsByEmbedding_discover in H.
    destruct (discover_cases g prompt (mkSearchOptions "" [serverCollection] 5)
                (reconcileTools g))
      as [(tr' & err & E & _)|(client & v & hits & _ & _ & Hs & E)];
      rewrite E in H; [discriminate|].
    inversion H; subst. exists client, v, hits. split; [exact Hs|reflexivity].
Qed.

(** ** What a handler that returns has done *)

Lemma keywordResponse_returned (configuration : Configuration) (params : FindServersParams)
    (tr : list event) (response : FindServersResponse) :
  keywordResponse configuration params = (tr, Returned response) ->
  Prompt params <> "" /\ tr = [] /\
  exists matches,
    rankedMatches configuration params = Some matches /\
    response = {| resp_prompt := Prompt params;
                  resp_total_matches := Z.of_nat (length (formatMatches matches));
                  resp_servers := formatMatches matches |}.
Proof.
  unfold keywordResponse. destruct (streq (Prompt params) "") eqn:E; [discriminate|].
  apply streq_false in E.
  destruct (rankedMatches configuration params) as [matches|]; [|discriminate].
  intros H. inversion H; subst. repeat split; [assumption|]. now exists matches.
Qed.

Lemma embeddingResponse_returned (g : Gateway) (params : FindServersParams)
    (tr : list event) (response : FindServersResponse) :
  embeddingResponse g params = (tr, Returned response) ->
  Prompt params <> "" /\
  exists servers,
    findServersByEmbedding g (Prompt params) (normalizeLimit (Limit params))
    = (tr, Returned servers) /\
    response = {| resp_prompt := Prompt params;
                  resp_total_matches := Z.of_nat (length servers);
                  resp_servers := servers |}.
Proof.
  unfold embeddingResponse. destruct (streq (Prompt params) "") eqn:E; [discriminate|].
  apply streq_false in E.
  destruct (findServersByEmbedding g (Prompt params) (normalizeLimit (Limit params)))
    as [tr' [servers|err|]]; simpl; try discriminate.
  intros H. inversion H; subst. split; [assumption|]. exists servers.
  now rewrite app_nil_r.
Qed.

Lemma findToolsResponse_returned (g : Gateway) (params : FindToolsParams)
    (tr : list event) (tools : list ToolInfo) :
  findToolsResponse g params = (tr, Returned tools) ->
  tools_Prompt params <> "" /\
  findToolsByEmbedding g (tools_Prompt params) = (tr, Returned tools).
Proof.
  unfold findToolsResponse. destruct (streq (tools_Prompt params) "") eqn:E; [discriminate|].
  apply streq_false in E. intros H. split; [assumption|].
  now apply orWrap_returned in H.
Qed.

Lemma bind_returned {A B} (m : M A) (k : A -> M B) (tr : list event) (v : B) :
  bind m k = (tr, Returned v) ->
  exists tr1 a tr2, m = (tr1, Returned a) /\ k a = (tr2, Returned v) /\ tr = tr1 ++ tr2.
Proof.
  destruct m as [tr1 [a|err|]]; simpl; try discriminate.
  destruct (k a) as [tr2 r] eqn:E. intros H. inversion H; subst.
  exists tr1, a, tr2. split; [reflexivity|]. split; [exact E|reflexivity].
Qed.

Lemma respond_returned (response : FindServersResponse) (tr : list event)
    (out : HandlerResult) :
  respond response = (tr, Returned out) ->
  tr = [] /\ json_Marshal_response response = inr (Text out).
Proof.
  destruct (respond_cases response) as [(err & E)|(text & Hm & E)]; rewrite E;
    [discriminate|].
  intros H. inversion H; subst. split; [reflexivity|exact Hm].
Qed.

Lemma parseFindServers_returned (req : CallToolRequest) (tr : list event)
    (params : FindServersParams) :
  parseFindServers req = (tr, Returned params) -> tr = [].
Proof.
  destruct (parseFindServers_cases req) as [(err & E)|(a & b & p & _ & _ & _ & E)];
    rewrite E; [discriminate|]. congruence.
Qed.

Lemma parseFindTools_returned (req : CallToolRequest) (tr : list event)
    (params : FindToolsParams) :
  parseFindTools req = (tr, Returned params) -> tr = [].
Proof.
  destruct (parseFindTools_cases req) as [(err & E)|(a & b & p & _ & _ & _ & E)];
    rewrite E; [discriminate|]. congruence.
Qed.

Lemma keywordStrategy_returned (configuration : Configuration) (req : CallToolRequest)
    (tr : list event) (out : HandlerResult) :
  keywordStrategy configuration req = (tr, Returned out) ->
  exists params response,
    parseFindServers req = ([], Returned params) /\
    keywordResponse configuration params = ([], Returned response) /\
    json_Marshal_response response = inr (Text out).
Proof.
  unfold keywordStrategy. intros H.
  apply bind_returned in H as (tr1 & p & tr2 & Hp & H & ->).
  apply bind_returned in H as (tr3 & resp & tr4 & Hk & H & ->).
  pose proof (parseFindServers_returned _ _ _ Hp) as ->.
  destruct (keywordResponse_returned _ _ _ _ Hk) as (_ & -> & _).
  apply respond_returned in H as (-> & Hm).
  exists p, resp. repeat split; assumption.
Qed.

Lemma embeddingStrategy_returned (g : Gateway) (req : CallToolRequest)
    (tr : list event) (out : HandlerResult) :
  embeddingStrategy g req = (tr, Returned out) ->
  exists params response,
    parseFindServers req = ([], Returned params) /\
    embeddingResponse g params = (tr, Returned response) /\
    json_Marshal_response response = inr (Text out).
Proof.
  unfold embeddingStrategy. intros H.
  apply bind_returned in H as (tr1 & p & tr2 & Hp & H & ->).
  apply bind_returned in H as (tr3 & resp & tr4 & Hk & H & ->).
  pose proof (parseFindServers_returned _ _ _ Hp) as ->.
  apply respond_returned in H as (-> & Hm).
  exists p, resp. simpl. rewrite app_nil_r. repeat split; assumption.
Qed.

Lemma findToolsHandler_returned (g : Gateway) (req : CallToolRequest)
    (tr : list event) (out : HandlerResult) :
  findToolsHandler g req = (tr, Returned out) ->
  exists params tools,
    parseFindTools req = ([], Returned params) /\
    findToolsResponse g params = (tr, Returned tools) /\
    json_MarshalIndent_tools tools = inr (Text out).
Proof.
  unfold findToolsHandler. intros H.
  apply bind_returned in H as (tr1 & p & tr2 & Hp & H & ->).
  apply bind_returned in H as (tr3 & tools & tr4 & Hk & H & ->).
  pose proof (parseFindTools_returned _ _ _ Hp) as ->.
  destruct (json_MarshalIndent_tools tools) as [err|text] eqn:Em; simpl in H;
    [discriminate|].
  inversion H; subst.
  exists p, tools. simpl. rewrite app_nil_r.
  split; [exact Hp|]. split; [exact Hk|exact Em].
Qed.

Lemma omap_length_le {A B} (f : A -> option B) (l : list A) :
  (length (omap f l) <= length l)%nat.
Proof. induction l as [|x l IH]; csimpl; [lia|]. destruct (f x); csimpl; lia. Qed.

(** ** Collections, limits and counts *)


(** C9. Whatever the prompt and the tool inventory, find-tools asks the
    vector search for at most 5 results, and so returns at most 5 tools
    when the index service keeps to the limit of a search; its input schema
    has the single property prompt, so a caller cannot supply a limit. *)
Theorem find_tools_limit_is_five (g : Gateway) (req : CallToolRequest) :
  Forall (fun call => args_Limit (snd call) = 5) (toolCalls (fst (findToolsHandler g req))) /\
  (honoursLimit ->
   forall tr out,
     findToolsHandler g req = (tr, Returned out) ->
     exists tools,
       json_MarshalIndent_tools tools = inr (Text out) /\ (length tools <= 5)%nat) /\
  (exists schema,
     mcp_InputSchema (reg_Tool createFindToolsTool) = Some schema /\
     dom (schema_properties schema) = ({[ "prompt" ]} : gset string) /\
     schema_required schema = ["prompt"]).
Proof.
  split; [|split].
  - destruct (findToolsHandler_trace g req) as [->|(p & _ & ->)]; [constructor|].
    destruct (findToolsResponse_trace g p) as [->| ->]; [constructor|].
    rewrite findToolsByEmbedding_discover.
    eapply Forall_impl; [apply discover_calls|]. simpl. tauto.
  - intros Hh tr out H.
    apply findToolsHandler_returned in H as (p & tools & _ & Hr & Hm).
    exists tools. split; [exact Hm|].
    apply findToolsResponse_returned in Hr as (_ & Hr).
    rewrite findToolsByEmbedding_discover in Hr.
    destruct (discover_cases g (tools_Prompt p) (mkSearchOptions "" [serverCollection] 5)
                (reconcileTools g))
      as [(tr' & err & E & _)|(client & v & hits & _ & _ & Hs & E)];
      rewrite E in Hr; [discriminate|].
    inversion Hr; subst.
    apply (SearchVectors_limit _ _ _ _ _ Hh) in Hs; [|simpl; lia]. simpl in Hs.
    rewrite reconcileTools_omap. simpl.
    pose proof (omap_length_le (toolOf g) hits). lia.
  - eexists. split; [reflexivity|]. simpl. split; [|reflexivity].
    now rewrite dom_singleton_L.
Qed.

(** C5. find-servers replaces a limit that is not positive by 10 and
    returns at most the effective limit of servers: always under the
    keyword strategy, and under the embedding strategy when the index
    service keeps to the limit of a search, which is passed on to it. *)
Theorem find_servers_respects_limit (g : Gateway) (configuration : Configuration)
    (req : CallToolRequest) :
  (forall limit, limit <= 0 -> normalizeLimit limit = 10) /\
  (forall limit, 0 < limit -> normalizeLimit limit = limit) /\
  (forall tr out,
     keywordStrategy configuration req = (tr, Returned out) ->
     exists params response,
       parseFindServers req = ([], Returned params) /\
       json_Marshal_response response = inr (Text out) /\
       Z.of_nat (length (resp_servers response)) <= normalizeLimit (Limit params)) /\
  (honoursLimit ->
   forall tr out,
     embeddingStrategy g req = (tr, Returned out) ->
     exists params response,
       parseFindServers req = ([], Returned params) /\
       json_Marshal_response response = inr (Text out) /\
       Z.of_nat (length (resp_servers response)) <= normalizeLimit (Limit params)).
Proof.
  split; [|split; [|split]].
  - intros limit H. unfold normalizeLimit. now rewrite (proj2 (Z.leb_le limit 0) H).
  - intros limit H. unfold normalizeLimit. now rewrite (proj2 (Z.leb_gt limit 0) H).
  - intros tr out H.
    apply keywordStrategy_returned in H as (p & resp & Hp & Hk & Hm).
    exists p, resp. split; [exact Hp|]. split; [exact Hm|].
    apply keywordResponse_returned in Hk as (Hne & _ & matches & Hr & ->). simpl.
    destruct (keywordResponse_ranked configuration p Hne) as [Hr' _].
    rewrite Hr in Hr'. inversion Hr'; subst.
    pose proof (normalizeLimit_pos (Limit p)) as Hpos.
    rewrite formatMatches_map, length_map, limitMatches_take, length_take by assumption.
    lia.
  - intros Hh tr out H.
    apply embeddingStrategy_returned in H as (p & resp & Hp & Hk & Hm).
    exists p, resp. split; [exact Hp|]. split; [exact Hm|].
    apply embeddingResponse_returned in Hk as (Hne & servers & Hr & ->). simpl.
    rewrite findServersByEmbedding_discover in Hr.
    destruct (discover_cases g (Prompt p)
                (mkSearchOptions serverCollection [] (normalizeLimit (Limit p)))
                (reconcileServers g))
      as [(tr' & err & E & _)|(client & v & hits & _ & _ & Hs & E)];
      rewrite E in Hr; [discriminate|].
    inversion Hr; subst.
    apply (SearchVectors_limit _ _ _ _ _ Hh) in Hs; [|apply normalizeLimit_pos].
    simpl in Hs. rewrite reconcileServers_omap. simpl.
    pose proof (omap_length_le (serverOf g) hits). lia.
Qed.

(** C10. In every successful find-servers response, under either
    strategy, total_matches is the length of the servers list of that same
    response: under the keyword strategy the number of matches left after
    the cut at the limit, under the embedding strategy the number of hits
    left after the unreconciled ones are dropped. *)
Theorem total_matches_is_servers_length (g : Gateway) (configuration : Configuration)
    (req : CallToolRequest) :
  (forall tr out,
     keywordStrategy configuration req = (tr, Returned out) ->
     exists params response,
       parseFindServers req = ([], Returned params) /\
       json_Marshal_response response = inr (Text out) /\
       resp_total_matches response = Z.of_nat (length (resp_servers response)) /\
       length (resp_servers response)
       = Nat.min (Z.to_nat (normalizeLimit (Limit params)))
           (length (collectMatches (ToLower (TrimSpace (Prompt params)))
                      (servers configuration)))) /\
  (forall tr out,
     embeddingStrategy g req = (tr, Returned out) ->
     exists params response client v hits,
       parseFindServers req = ([], Returned params) /\
       json_Marshal_response response = inr (Text out) /\
       resp_total_matches response = Z.of_nat (length (resp_servers response)) /\
       SearchVectors client v
         (Some (mkSearchOptions serverCollection [] (normalizeLimit (Limit params))))
       = ([EvCallTool "search"
             (mkSearchArgs v serverCollection [] (normalizeLimit (Limit params)))],
          Returned hits) /\
       resp_servers response = fst (reconcileServers g hits)).
Proof.
  split; intros tr out H.
  - apply keywordStrategy_returned in H as (p & resp & Hp & Hk & Hm).
    exists p, resp. split; [exact Hp|]. split; [exact Hm|].
    apply keywordResponse_returned in Hk as (Hne & _ & matches & Hr & ->). simpl.
    split; [reflexivity|].
    destruct (keywordResponse_ranked configuration p Hne) as [Hr' _].
    rewrite Hr in Hr'. inversion Hr'; subst.
    rewrite formatMatches_map, length_map, limitMatches_take, length_take
      by apply normalizeLimit_pos.
    f_equal. apply Permutation_length, exchangeSort_perm.
  - apply embeddingStrategy_returned in H as (p & resp & Hp & Hk & Hm).
    apply embeddingResponse_returned in Hk as (Hne & servers & Hr & ->).
    rewrite findServersByEmbedding_discover in Hr.
    destruct (discover_cases g (Prompt p)
                (mkSearchOptions serverCollection [] (normalizeLimit (Limit p)))
                (reconcileServers g))
      as [(tr' & err & E & _)|(client & v & hits & _ & _ & Hs & E)];
      rewrite E in Hr; [discriminate|].
    inversion Hr; subst.
    eexists p, _, client, v, hits.
    split; [exact Hp|]. split; [exact Hm|]. split; [reflexivity|].
    split; [exact Hs|reflexivity].
Qed.

(** C6. A call of find-servers, under either strategy, or of find-tools
    whose prompt argument is missing or empty fails at once with an input
    error: nothing is asked of the embedding provider or of the index, and
    no result is returned. A call that returns a result had a prompt that
    is not empty. *)
Theorem empty_prompt_is_rejected (g : Gateway) (configuration : Configuration)
    (req : CallToolRequest) :
  (Arguments req = None ->
   keywordStrategy configuration req = ([], Failed "missing arguments") /\
   embeddingStrategy g req = ([], Failed "missing arguments") /\
   findToolsHandler g req = ([], Failed "missing arguments")) /\
  (forall arguments paramsBytes params,
     Arguments req = Some arguments ->
     json_Marshal arguments = inr paramsBytes ->
     json_Unmarshal_servers paramsBytes = inr params ->
     Prompt params = "" ->
     keywordStrategy configuration req = ([], Failed "query parameter is required") /\
     embeddingStrategy g req = ([], Failed "query parameter is required")) /\
  (forall arguments paramsBytes params,
     Arguments req = Some arguments ->
     json_Marshal arguments = inr paramsBytes ->
     json_Unmarshal_tools paramsBytes = inr params ->
     tools_Prompt params = "" ->
     findToolsHandler g req = ([], Failed "prompt parameter is required")) /\
  (forall tr out,
     keywordStrategy configuration req = (tr, Returned out) \/
     embeddingStrategy g req = (tr, Returned out) ->
     exists params, parseFindServers req = ([], Returned params) /\ Prompt params <> "") /\
  (forall tr out,
     findToolsHandler g req = (tr, Returned out) ->
     exists params, parseFindTools req = ([], Returned params) /\ tools_Prompt params <> "").
Proof.
  split; [|split; [|split; [|split]]].
  - intros Ha. unfold keywordStrategy, embeddingStrategy, findToolsHandler,
      parseFindServers, parseFindTools. rewrite Ha. repeat split.
  - intros a b p Ha Hb Hu He.
    unfold keywordStrategy, embeddingStrategy, parseFindServers.
    rewrite Ha, Hb. simpl. rewrite Hu. simpl.
    unfold keywordResponse, embeddingResponse. rewrite He. split; reflexivity.
  - intros a b p Ha Hb Hu He.
    unfold findToolsHandler, parseFindTools.
    rewrite Ha, Hb. simpl. rewrite Hu. simpl.
    unfold findToolsResponse. rewrite He. reflexivity.
  - intros tr out [H|H].
    + apply keywordStrategy_returned in H as (p & resp & Hp & Hk & _).
      exists p. split; [exact Hp|].
      now apply keywordResponse_returned in Hk as (Hne & _).
    + apply embeddingStrategy_returned in H as (p & resp & Hp & Hk & _).
      exists p. split; [exact Hp|].
      now apply embeddingResponse_returned in Hk as (Hne & _).
  - intros tr out H.
    apply findToolsHandler_returned in H as (p & tools & Hp & Hk & _).
    exists p. split; [exact Hp|].
    now apply findToolsResponse_returned in Hk as (Hne & _).
Qed.

(** ** More on the keyword strategy *)

Lemma maxWeight_elem (ws : list Z) :
  ws <> [] -> Forall (fun w => 0 <= w) ws -> maxWeight ws ∈ ws.
Proof.
  induction ws as [|w ws IH]; [congruence|]. intros _ Hall.
  inversion Hall as [|? ? Hw Hws]; subst. simpl. fold (maxWeight ws).
  destruct ws as [|w' ws'].
  - simpl. rewrite Z.max_l by lia. left.
  - destruct (Z.max_spec w (maxWeight (w' :: ws'))) as [[_ ->]|[_ ->]].
    + right. apply IH; [discriminate|assumption].
    + left.
Qed.

Lemma maxWeight_le (ws : list Z) (b : Z) :
  0 <= b -> Forall (fun w => w <= b) ws -> maxWeight ws <= b.
Proof.
  intros Hb. induction 1 as [|w ws Hw Hall IH]; simpl; [lia|].
  fold (maxWeight ws). lia.
Qed.

Lemma exactWeight_Forall (P : Z -> Prop) (w : Z) (query field : string) :
  P w -> Forall P (exactWeight w query field).
Proof. intros Hw. unfold exactWeight. destruct (streq _ _); repeat constructor. exact Hw. Qed.

Lemma containsWeight_Forall (P : Z -> Prop) (w : Z) (query field : string) :
  P w -> Forall P (containsWeight w query field).
Proof. intros Hw. unfold containsWeight. destruct (Contains _ _); repeat constructor. exact Hw. Qed.

Lemma present_Forall (P : Z -> Prop) (field : string) (ws : list Z) :
  Forall P ws -> Forall P (present field ws).
Proof. intros H. unfold present. destruct (streq _ _); [constructor|exact H]. Qed.

Lemma toolWeights_Forall (P : Z -> Prop) (query : string) (tools : list Tool) :
  P 90 -> P 40 -> P 30 -> Forall P (flat_map (toolWeights query) tools).
Proof.
  intros H90 H40 H30. induction tools as [|tool tools IH]; simpl; [constructor|].
  apply Forall_app. split; [|exact IH].
  unfold toolWeights. rewrite !Forall_app.
  auto using exactWeight_Forall, containsWeight_Forall.
Qed.

Lemma presentWeights_split (query serverName : string) (server : Server) :
  presentWeights query serverName server
  = (exactWeight 100 query serverName ++ containsWeight 50 query serverName)
    ++ otherWeights query server.
Proof. reflexivity. Qed.

Lemma otherWeights_bounds (query : string) (server : Server) :
  Forall (fun w => w ∈ weightTable /\ 0 <= w <= 97) (otherWeights query server).
Proof.
  unfold otherWeights, weightTable. rewrite !Forall_app.
  repeat split;
    repeat first
      [ apply present_Forall
      | apply Forall_app; split
      | apply exactWeight_Forall
      | apply containsWeight_Forall
      | apply toolWeights_Forall ];
    (split; [in_table|lia]).
Qed.

Lemma presentWeights_table (query serverName : string) (server : Server) :
  Forall (fun w => w ∈ weightTable /\ 0 <= w) (presentWeights query serverName server).
Proof.
  rewrite presentWeights_split, !Forall_app. repeat split.
  - apply exactWeight_Forall. unfold weightTable. split; [in_table|lia].
  - apply containsWeight_Forall. unfold weightTable. split; [in_table|lia].
  - eapply Forall_impl; [apply otherWeights_bounds|]. simpl. intros w [? ?]. split; [assumption|lia].
Qed.

(** The matches collected are the catalog entries whose pair says match,
    each with the score of its pair. *)
Lemma collectMatches_elem (query : string) (catalog : list (string * Server))
    (m : ServerMatch) :
  m ∈ collectMatches query catalog ->
  (Name m, match_Server m) ∈ catalog /\
  scoreServer query (Name m) (match_Server m) = (true, Score m).
Proof.
  induction catalog as [|[n s] rest IH]; intros Hm.
  - inversion Hm.
  - rewrite collectMatches_cons in Hm. apply elem_of_app in Hm as [Hm|Hm].
    + destruct (scoreServer query n s) as [[|] z] eqn:E; simpl in Hm; [|inversion Hm].
      apply list_elem_of_singleton in Hm. subst m. simpl. split; [left|exact E].
    + destruct (IH Hm) as [Hin Hs]. split; [now right|exact Hs].
Qed.

(** X1. Whatever the query, the score of a collected match is one of the
    ten weights of the keyword strategy: a server that is kept never
    carries the initial score 0, and none scores above 100. *)
Theorem keyword_score_in_table (query : string) (catalog : list (string * Server))
    (m : ServerMatch) :
  m ∈ collectMatches query catalog ->
  Score m ∈ weightTable /\ 20 <= Score m <= 100.
Proof using ToLower.
  intros Hm. apply collectMatches_elem in Hm as [_ Hs].
  rewrite scoreServer_present_weights in Hs. unfold summary in Hs.
  inversion Hs as [[Hany Hmax]].
  pose proof (presentWeights_table query (Name m) (match_Server m)) as Hall.
  assert (Hne : presentWeights query (Name m) (match_Server m) <> [])
    by (intros E; rewrite E in Hany; discriminate).
  assert (Hin : maxWeight (presentWeights query (Name m) (match_Server m))
                ∈ presentWeights query (Name m) (match_Server m)).
  { apply maxWeight_elem; [exact Hne|].
    eapply Forall_impl; [exact Hall|]. simpl. intros w [_ Hw]. exact Hw. }
  rewrite Forall_forall in Hall. destruct (Hall _ Hin) as [Htab _].
  split; [exact Htab|].
  unfold weightTable in Htab.
  repeat (apply elem_of_cons in Htab as [->|Htab]; [lia|]). inversion Htab.
Qed.

(** X2. A server scores 100 exactly when its lowered name equals the
    query; every other match scores at most 97, so among the collected
    matches one whose name equals the query always outscores one whose
    name does not. *)
Theorem keyword_exact_name_outscores (query : string) :
  (forall serverName server,
     snd (scoreServer query serverName server) = 100 <-> ToLower serverName = query) /\
  (forall serverName server,
     ToLower serverName <> query -> snd (scoreServer query serverName server) <= 97) /\
  (forall catalog m m',
     m ∈ collectMatches query catalog -> m' ∈ collectMatches query catalog ->
     ToLower (Name m) = query -> ToLower (Name m') <> query ->
     Score m' < Score m).
Proof.
  assert (Hexact : forall serverName server,
            ToLower serverName = query ->
            snd (scoreServer query serverName server) = 100).
  { intros n s Hn. rewrite scoreServer_present_weights, presentWeights_split. simpl.
    rewrite maxWeight_app. unfold exactWeight, containsWeight.
    rewrite Hn, Contains_refl. unfold streq. rewrite bool_decide_eq_true_2 by reflexivity.
    pose proof (maxWeight_le (otherWeights query s) 97) as Hle.
    assert (maxWeight (otherWeights query s) <= 97).
    { apply Hle; [lia|]. eapply Forall_impl; [apply otherWeights_bounds|].
      simpl. intros w [_ ?]. lia. }
    pose proof (maxWeight_nonneg (otherWeights query s)). simpl. lia. }
  assert (Hother : forall serverName server,
            ToLower serverName <> query ->
            snd (scoreServer query serverName server) <= 97).
  { intros n s Hn. rewrite scoreServer_present_weights, presentWeights_split. simpl.
    rewrite maxWeight_app. unfold exactWeight, containsWeight.
    apply streq_false in Hn. rewrite Hn.
    assert (maxWeight (otherWeights query s) <= 97).
    { apply maxWeight_le; [lia|]. eapply Forall_impl; [apply otherWeights_bounds|].
      simpl. intros w [_ ?]. lia. }
    pose proof (maxWeight_nonneg (otherWeights query s)).
    destruct (Contains (ToLower n) query); simpl; lia. }
  split; [|split].
  - intros n s. split; [|apply Hexact].
    intros H100. destruct (decide (ToLower n = query)) as [|Hne]; [assumption|].
    specialize (Hother n s Hne). lia.
  - exact Hother.
  - intros catalog m m' Hm Hm' Hn Hn'.
    apply collectMatches_elem in Hm as [_ Hs], Hm' as [_ Hs'].
    specialize (Hexact (Name m) (match_Server m) Hn).
    specialize (Hother (Name m') (match_Server m') Hn').
    rewrite Hs in Hexact. rewrite Hs' in Hother. simpl in *. lia.
Qed.

Lemma bubbleMax_first_max (x m : ServerMatch) (pre post : list ServerMatch) :
  Score x < Score m ->
  Forall (fun a => Score a < Score m) pre ->
  Forall (fun a => Score a <= Score m) post ->
  fst (bubbleMax x (pre ++ m :: post)) = m.
Proof.
  intros Hx Hpre Hpost. revert x Hx.
  induction Hpre as [|y pre Hy Hpre IH]; intros x Hx; simpl.
  - rewrite (proj2 (Z.ltb_lt _ _) Hx).
    rewrite bubbleMax_sorted by exact Hpost. reflexivity.
  - destruct (Score x <? Score y).
    + specialize (IH y Hy). destruct (bubbleMax y (pre ++ m :: post)). exact IH.
    + specialize (IH x Hx). destruct (bubbleMax x (pre ++ m :: post)). exact IH.
Qed.

Lemma exchangeSort_S (k : nat) (x : ServerMatch) (rest : list ServerMatch) :
  exchangeSort (S k) (x :: rest)
  = fst (bubbleMax x rest) :: exchangeSort k (snd (bubbleMax x rest)).
Proof. simpl. now destruct (bubbleMax x rest). Qed.

(** X3. The sort puts in front the first match met among those of the
    highest score: when every match met before [m] scores less than [m]
    and none met after it scores more, the sorted slice starts with [m]. *)
Theorem sort_puts_first_best_in_front (pre post : list ServerMatch) (m : ServerMatch) :
  Forall (fun a => Score a < Score m) pre ->
  Forall (fun a => Score a <= Score m) post ->
  exists rest,
    sortMatches (pre ++ m :: post) = Some (m :: rest) /\
    rest ≡ₚ pre ++ post.
Proof.
  intros Hpre Hpost. rewrite sortMatches_spec.
  assert (Hhead : exists rest,
            exchangeSort (length (pre ++ m :: post) - 1) (pre ++ m :: post) = m :: rest).
  { assert (Hlen : (length (pre ++ m :: post) - 1 = length pre + length post)%nat)
      by (rewrite length_app; simpl; lia).
    rewrite Hlen. destruct pre as [|x pre].
    - destruct post as [|y post]; [now exists []|].
      cbn [length Nat.add app].
      rewrite exchangeSort_S, bubbleMax_sorted by exact Hpost. eauto.
    - inversion Hpre as [|? ? Hx Hpre']; subst.
      cbn [length Nat.add app].
      rewrite exchangeSort_S, (bubbleMax_first_max x m pre post Hx Hpre' Hpost). eauto. }
  destruct Hhead as [rest Hrest]. exists rest. split; [now rewrite Hrest|].
  pose proof (exchangeSort_perm (length (pre ++ m :: post) - 1) (pre ++ m :: post)) as Hp.
  rewrite Hrest in Hp. rewrite <- Permutation_middle in Hp.
  now apply Permutation_cons_inv in Hp.
Qed.

(** X4. The keyword handler never panics and does nothing to the outside;
    it fails only for missing arguments, arguments that do not encode or
    decode, an empty prompt, or a response that does not encode. Once the
    arguments decode to a prompt that is not empty it builds a response,
    and returns it when the response encodes. *)
Theorem keyword_handler_fails_only_on_input (configuration : Configuration)
    (req : CallToolRequest) :
  snd (keywordStrategy configuration req) <> Panic /\
  fst (keywordStrategy configuration req) = [] /\
  (forall err,
     snd (keywordStrategy configuration req) = Failed err ->
     err = "missing arguments" \/
     (exists cause, err = wrap "failed to marshal arguments" cause) \/
     (exists cause, err = wrap "failed to parse arguments" cause) \/
     err = "query parameter is required" \/
     (exists cause, err = wrap "failed to marshal response" cause)) /\
  (forall params,
     parseFindServers req = ([], Returned params) ->
     Prompt params <> "" ->
     exists response,
       keywordResponse configuration params = ([], Returned response) /\
       keywordStrategy configuration req = respond response).
Proof.
  assert (Hgo : forall params,
            parseFindServers req = ([], Returned params) ->
            Prompt params <> "" ->
            exists response,
              keywordResponse configuration params = ([], Returned response) /\
              keywordStrategy configuration req = respond response).
  { intros p Hp Hne.
    destruct (keywordResponse_ranked configuration p Hne) as [_ Hk].
    eexists. split; [exact Hk|].
    unfold keywordStrategy. rewrite Hp. simpl. rewrite Hk. simpl.
    now destruct (respond _). }
  split; [|split; [apply keywordStrategy_trace|split; [|exact Hgo]]].
  - unfold keywordStrategy, parseFindServers.
    destruct (Arguments req) as [a|]; [|discriminate]. simpl.
    destruct (json_Marshal a) as [e|b]; simpl; [discriminate|].
    destruct (json_Unmarshal_servers b) as [e|p] eqn:Eu; simpl; [discriminate|].
    destruct (streq (Prompt p) "") eqn:Ep.
    + unfold keywordResponse. rewrite Ep. discriminate.
    + apply streq_false in Ep.
      destruct (keywordResponse_ranked configuration p Ep) as [_ Hk]. rewrite Hk. simpl.
      unfold respond. destruct (json_Marshal_response _); discriminate.
  - intros err. unfold keywordStrategy, parseFindServers.
    destruct (Arguments req) as [a|]; [|simpl; intros H; inversion H; auto]. simpl.
    destruct (json_Marshal a) as [e|b]; simpl;
      [intros H; inversion H; right; left; eauto|].
    destruct (json_Unmarshal_servers b) as [e|p] eqn:Eu; simpl;
      [intros H; inversion H; right; right; left; eauto|].
    destruct (streq (Prompt p) "") eqn:Ep.
    + unfold keywordResponse. rewrite Ep. simpl. intros H; inversion H. auto.
    + apply streq_false in Ep.
      destruct (keywordResponse_ranked configuration p Ep) as [_ Hk]. rewrite Hk. simpl.
      unfold respond. destruct (json_Marshal_response _); simpl; intros H; inversion H.
      right; right; right; right. eauto.
Qed.

Lemma secret_names_map (secrets : list Secret) (acc : list string) :
  fold_left (fun names secret => names ++ [secret_Name secret]) secrets acc
  = acc ++ map secret_Name secrets.
Proof.
  revert acc. induction secrets as [|s secrets IH]; intros acc; simpl.
  - now rewrite app_nil_r.
  - rewrite IH. now rewrite <- app_assoc.
Qed.

(** X5. The server info that both strategies emit lists the names of the
    required secrets in the order of the catalog entry, and leaves out each
    optional key rather than emit it empty: no description key for an empty
    description, no required_secrets key without secrets, no config_schema
    key without config items; name and long_lived are always there. *)
Theorem server_info_optional_keys (name : string) (server : Server) :
  info_name (serverInfoOf name server) = name /\
  info_long_lived (serverInfoOf name server) = LongLived server /\
  info_description (serverInfoOf name server)
  = (if decide (Description server = "") then None else Some (Description server)) /\
  info_required_secrets (serverInfoOf name server)
  = match Secrets server with
    | [] => None
    | _ :: _ => Some (map secret_Name (Secrets server))
    end /\
  info_config_schema (serverInfoOf name server)
  = match Config server with
    | [] => None
    | _ :: _ => Some (Config server)
    end /\
  info_description (serverInfoOf name server) <> Some "" /\
  info_required_secrets (serverInfoOf name server) <> Some [] /\
  info_config_schema (serverInfoOf name server) <> Some [].
Proof.
  unfold serverInfoOf. simpl. rewrite secret_names_map. simpl.
  split; [reflexivity|]. split; [reflexivity|].
  unfold streq.
  destruct (Secrets server) as [|s ss]; destruct (Config server) as [|c cs];
    destruct (decide (Description server = "")) as [Hd|Hd];
    rewrite ?(bool_decide_eq_true_2 _ Hd), ?(bool_decide_eq_false_2 _ Hd); simpl;
    repeat split; try discriminate; congruence.
Qed.

Lemma collectMatches_names (query : string) (catalog : list (string * Server)) :
  map Name (collectMatches query catalog) `sublist_of` map fst catalog.
Proof.
  induction catalog as [|[n s] rest IH]; [constructor|].
  rewrite collectMatches_cons, map_app. simpl.
  destruct (fst (scoreServer query n s)); simpl.
  - now apply sublist_skip.
  - now apply sublist_cons.
Qed.

(** X6. When the catalog holds each server name once, as a Go map does, no
    server appears twice in a keyword response, and every server of the
    response is named in the catalog. *)
Theorem keyword_response_without_duplicates (configuration : Configuration)
    (params : FindServersParams) (tr : list event) (response : FindServersResponse) :
  NoDup (map fst (servers configuration)) ->
  keywordResponse configuration params = (tr, Returned response) ->
  NoDup (map info_name (resp_servers response)) /\
  forall name, name ∈ map info_name (resp_servers response) ->
               name ∈ map fst (servers configuration).
Proof.
  intros Hnd Hk.
  apply keywordResponse_returned in Hk as (Hne & _ & matches & Hr & ->). simpl.
  destruct (keywordResponse_ranked configuration params Hne) as [Hr' _].
  rewrite Hr in Hr'. inversion Hr'; subst. clear Hr'.
  rewrite formatMatches_map, map_map. simpl.
  rewrite limitMatches_take by apply normalizeLimit_pos.
  set (encounter := collectMatches (ToLower (TrimSpace (Prompt params)))
                      (servers configuration)).
  assert (Hsub : map Name (take (Z.to_nat (normalizeLimit (Limit params)))
                             (exchangeSort (length encounter - 1) encounter))
                 `sublist_of` map Name (exchangeSort (length encounter - 1) encounter)).
  { change (map Name) with (fmap (M:=list) Name). rewrite fmap_take. apply sublist_take. }
  assert (Hperm : map Name (exchangeSort (length encounter - 1) encounter)
                  ≡ₚ map Name encounter)
    by (apply Permutation_map, exchangeSort_perm).
  assert (Hnd' : NoDup (map Name encounter))
    by (eapply sublist_NoDup; [exact Hnd|apply collectMatches_names]).
  split.
  - eapply sublist_NoDup; [|exact Hsub]. now rewrite Hperm.
  - intros name Hin.
    eapply elem_of_sublist in Hin; [|exact Hsub].
    rewrite Hperm in Hin.
    eapply elem_of_sublist; [exact Hin|apply collectMatches_names].
Qed.

(** X7. Raising the limit of a keyword search only adds servers at the
    end: for the same prompt, the response for the smaller effective limit
    is a prefix of the response for the larger one. *)
Theorem keyword_larger_limit_extends (configuration : Configuration)
    (params params' : FindServersParams) (tr tr' : list event)
    (response response' : FindServersResponse) :
  Prompt params = Prompt params' ->
  normalizeLimit (Limit params) <= normalizeLimit (Limit params') ->
  keywordResponse configuration params = (tr, Returned response) ->
  keywordResponse configuration params' = (tr', Returned response') ->
  resp_servers response `prefix_of` resp_servers response' /\
  resp_total_matches response <= resp_total_matches response'.
Proof.
  intros Hp Hle Hk Hk'.
  apply keywordResponse_returned in Hk as (Hne & _ & matches & Hr & ->).
  apply keywordResponse_returned in Hk' as (Hne' & _ & matches' & Hr' & ->). simpl.
  destruct (keywordResponse_ranked configuration params Hne) as [Hr0 _].
  destruct (keywordResponse_ranked configuration params' Hne') as [Hr0' _].
  rewrite Hr in Hr0. rewrite Hr' in Hr0'. inversion Hr0; inversion Hr0'; subst. clear Hr0 Hr0'.
  rewrite <- Hp.
  set (sorted := exchangeSort _ _).
  rewrite !limitMatches_take by apply normalizeLimit_pos.
  pose proof (normalizeLimit_pos (Limit params)) as Hpos.
  assert (Hpre : take (Z.to_nat (normalizeLimit (Limit params))) sorted
                 `prefix_of` take (Z.to_nat (normalizeLimit (Limit params'))) sorted).
  { replace (take (Z.to_nat (normalizeLimit (Limit params))) sorted)
      with (take (Z.to_nat (normalizeLimit (Limit params)))
              (take (Z.to_nat (normalizeLimit (Limit params'))) sorted)).
    - apply prefix_take.
    - rewrite take_take. f_equal. lia. }
  destruct Hpre as [k Hk]. rewrite Hk, !formatMatches_map, map_app, length_app.
  split; [now eexists|lia].
Qed.

(** ** More on the embedding path *)

Lemma omap_either_length {A B C} (f : A -> option B) (w : A -> option C) (l : list A) :
  (forall x, (is_Some (f x) /\ w x = None) \/ (f x = None /\ is_Some (w x))) ->
  (length (omap f l) + length (omap w l) = length l)%nat.
Proof.
  intros H. induction l as [|x l IH]; [reflexivity|]. csimpl.
  destruct (H x) as [[[y Hy] Hw]|[Hf [y Hy]]].
  - rewrite Hy, Hw. csimpl. lia.
  - rewrite Hf, Hy. csimpl. lia.
Qed.

Lemma omap_Forall_Some {A B} (w : A -> option B) (P : B -> Prop) (l : list A) :
  (forall x y, w x = Some y -> P y) -> Forall P (omap w l).
Proof.
  intros H. induction l as [|x l IH]; csimpl; [constructor|].
  destruct (w x) as [y|] eqn:E; csimpl; [constructor; eauto|assumption].
Qed.

Lemma serverWarnings_are_warnings (g : Gateway) (results : list SearchResult) :
  Forall isWarning (snd (reconcileServers g results)).
Proof.
  rewrite reconcileServers_omap. simpl. apply omap_Forall_Some. intros r w Hw.
  destruct (serverOf_or_warning g r) as [[_ Hn]|(_ & w' & Hw' & Hi)]; congruence.
Qed.

Lemma toolWarnings_are_warnings (g : Gateway) (results : list SearchResult) :
  Forall isWarning (snd (reconcileTools g results)).
Proof.
  rewrite reconcileTools_omap. simpl. apply omap_Forall_Some. intros r w Hw.
  destruct (toolOf_or_warning g r) as [[_ Hn]|(_ & w' & Hw' & Hi)]; congruence.
Qed.

(** X8. Both reconciliation loops account for every search hit: each hit
    yields either one entry of the result or one logged line, never both
    and never neither, and every line logged is a warning. *)
Theorem reconciliation_accounts_for_every_hit (g : Gateway) (results : list SearchResult) :
  (length (fst (reconcileServers g results)) + length (snd (reconcileServers g results))
   = length results)%nat /\
  Forall isWarning (snd (reconcileServers g results)) /\
  (length (fst (reconcileTools g results)) + length (snd (reconcileTools g results))
   = length results)%nat /\
  Forall isWarning (snd (reconcileTools g results)).
Proof.
  split; [|split; [apply serverWarnings_are_warnings|split;
                   [|apply toolWarnings_are_warnings]]].
  - rewrite reconcileServers_omap. simpl. apply omap_either_length. intros r.
    destruct (serverOf_or_warning g r) as [[Hs Hn]|(Hn & w & Hw & _)]; [now left|].
    right. split; [assumption|]. rewrite Hw. eauto.
  - rewrite reconcileTools_omap. simpl. apply omap_either_length. intros r.
    destruct (toolOf_or_warning g r) as [[Hs Hn]|(Hn & w & Hw & _)]; [now left|].
    right. split; [assumption|]. rewrite Hw. eauto.
Qed.

Lemma discover_trace {A} (g : Gateway) (text : string) (o : SearchOptions)
    (reconcile : list SearchResult -> list A * list logline) :
  (forall results, Forall isWarning (snd (reconcile results))) ->
  discoveryTrace text o (fst (discover g text o reconcile)).
Proof.
  intros Hw. unfold discover, discoveryTrace.
  destruct (embeddingsClient g) as [client|]; [|now left].
  unfold embed. simpl.
  destruct (generateEmbedding text) as [err|v] eqn:Ev; simpl; [right; now left|].
  destruct (SearchVectors_cases client v o) as [(err & E)|[(err & E)|(reply & _ & _ & E)]];
    rewrite E; simpl.
  - right. now left.
  - right. right. exists v, []. repeat split. constructor.
  - right. right. eexists v, _. split; [reflexivity|]. split; [apply Hw|reflexivity].
Qed.

(** X9. The effects of an embedding discovery call come in a fixed order:
    find-servers (embedding strategy) and find-tools each ask the provider
    for the embedding of the prompt exactly as it was decoded, at most
    once; only when that succeeded do they issue a search, at most one,
    with the returned vector; and only warnings are logged afterwards. A
    call whose arguments or prompt are rejected has no effect at all. *)
Theorem discovery_effects_in_order (g : Gateway) (req : CallToolRequest) :
  (fst (embeddingStrategy g req) = [] \/
   exists params,
     parseFindServers req = ([], Returned params) /\
     Prompt params <> "" /\
     discoveryTrace (Prompt params)
       (mkSearchOptions serverCollection [] (normalizeLimit (Limit params)))
       (fst (embeddingStrategy g req))) /\
  (fst (findToolsHandler g req) = [] \/
   exists params,
     parseFindTools req = ([], Returned params) /\
     tools_Prompt params <> "" /\
     discoveryTrace (tools_Prompt params) (mkSearchOptions "" [serverCollection] 5)
       (fst (findToolsHandler g req))).
Proof.
  split.
  - destruct (embeddingStrategy_trace g req) as [->|(p & Hp & ->)]; [now left|].
    unfold embeddingResponse. destruct (streq (Prompt p) "") eqn:E; [now left|].
    right. exists p. split; [exact Hp|]. split; [now apply streq_false|].
    rewrite bind_trace, orWrap_trace, findServersByEmbedding_discover.
    match goal with |- discoveryTrace _ _ (_ ++ ?t) => replace t with (@nil event) end.
    + rewrite app_nil_r. apply discover_trace, serverWarnings_are_warnings.
    + now destruct (snd (orWrap _ _)).
  - destruct (findToolsHandler_trace g req) as [->|(p & Hp & ->)]; [now left|].
    unfold findToolsResponse. destruct (streq (tools_Prompt p) "") eqn:E; [now left|].
    right. exists p. split; [exact Hp|]. split; [now apply streq_false|].
    rewrite orWrap_trace, findToolsByEmbedding_discover.
    apply discover_trace, toolWarnings_are_warnings.
Qed.

(** X10. A search hit is kept exactly when its name resolves. For servers:
    the metadata name is a string that the catalog finds, the empty string
    included. For tools: the name field is a string that is not empty and
    is a key of the tool registry; the entry is then the registered
    descriptor. *)
Theorem hit_is_kept_exactly_when_resolved (g : Gateway) (hit : SearchResult) :
  (forall info,
     fst (reconcileServers g [hit]) = [info] <->
     exists name config,
       Metadata hit !! "name" = Some (AString name) /\
       Find (configuration g) name = Some config /\
       info = serverInfoOf name (Spec config)) /\
  (forall info,
     fst (reconcileTools g [hit]) = [info] <->
     exists name registration,
       toolNameField hit = Some (AString name) /\
       name <> "" /\
       toolRegistrations g !! name = Some registration /\
       info = toolInfoOf registration).
Proof.
  split; intros info.
  - rewrite reconcileServers_omap. csimpl. unfold serverOf.
    destruct (Metadata hit !! "name") as [v|] eqn:Em.
    2:{ split; [discriminate|]. intros (n & c & H & _). discriminate. }
    destruct v; try (split; [discriminate|intros (n & c & H & _); discriminate]).
    destruct (Find (configuration g) s) as [c|] eqn:Ef; csimpl.
    + split.
      * intros H. inversion H. eauto.
      * intros (n & c' & Hn & Hf & ->). inversion Hn; subst. congruence.
    + split; [discriminate|]. intros (n & c' & Hn & Hf & _). inversion Hn; subst. congruence.
  - rewrite reconcileTools_omap. csimpl. unfold toolOf, toolNameField, extractToolName.
    destruct (Metadata hit !! "tool") as [v|] eqn:Em.
    2:{ split; [discriminate|]. intros (n & c & H & _). discriminate. }
    assert (Hgen : forall s,
      (match (if streq s "" then None else toolInfoOf <$> toolRegistrations g !! s) with
       | Some y => [y]
       | None => []
       end = [info]) <->
      (s <> "" /\ exists registration,
         toolRegistrations g !! s = Some registration /\ info = toolInfoOf registration)).
    { intros s. destruct (streq s "") eqn:Es.
      - apply streq_true in Es. split; [discriminate|]. intros [Hne _]. congruence.
      - apply streq_false in Es.
        destruct (toolRegistrations g !! s) as [reg|]; simpl.
        + split.
          * intros H. inversion H. eauto.
          * intros (_ & reg' & Hr & ->). congruence.
        + split; [discriminate|]. intros (_ & reg' & Hr & _). discriminate. }
    destruct v; try (rewrite (Hgen ""); split;
                     [intros [Hne _]; congruence|intros (n & c & H & _); discriminate]).
    + rewrite (Hgen s). split.
      * intros (Hne & reg & Hr & ->). eauto 6.
      * intros (n & reg & Hn & Hne & Hr & ->). inversion Hn; subst. eauto.
    + destruct (m !! "name") as [v|] eqn:En.
      2:{ rewrite (Hgen ""). split; [intros [Hne _]; congruence|].
          intros (n & c & H & _). discriminate. }
      destruct v; try (rewrite (Hgen ""); split;
                       [intros [Hne _]; congruence|intros (n & c & H & _); discriminate]).
      rewrite (Hgen s). split.
      * intros (Hne & reg & Hr & ->). eauto 6.
      * intros (n & reg & Hn & Hne & Hr & ->). inversion Hn; subst. eauto.
Qed.

Lemma firstText_skip (pre post : list Content) (text : string) :
  Forall (fun content => content = OtherContent) pre ->
  firstText (pre ++ TextContent text :: post) = text.
Proof. induction 1 as [|x pre -> _ IH]; simpl; [reflexivity|exact IH]. Qed.

(** X11. Of a search reply that is not an error, [SearchVectors] reads the
    first text content only: contents of other kinds before it are skipped
    and everything after it is ignored. When that first text is empty the
    search fails, even if a later content carries text; otherwise the
    outcome is the decoding of that text alone. *)
Theorem search_reads_first_text_content (c : VectorDBClient) (vector : list float64)
    (o : SearchOptions) (reply : CallToolResult) (pre post : list Content)
    (text : string) :
  session c <> None ->
  session_CallTool "search"
    (mkSearchArgs vector (CollectionName o) (ExcludeCollections o) (opt_Limit o))
  = inr reply ->
  IsError reply = false ->
  result_Content reply = pre ++ TextContent text :: post ->
  Forall (fun content => content = OtherContent) pre ->
  SearchVectors c vector (Some o)
  = ([EvCallTool "search"
        (mkSearchArgs vector (CollectionName o) (ExcludeCollections o) (opt_Limit o))],
     if decide (text = "") then Failed "no text content in response"
     else match json_Unmarshal_results text with
          | inr results => Returned results
          | inl err => Failed (wrap "failed to parse search response" err)
          end).
Proof.
  intros Hs Hc He Hcontent Hpre. unfold SearchVectors, CallTool.
  destruct (session c); [|congruence]. simpl. rewrite Hc. simpl. rewrite He, Hcontent.
  rewrite firstText_skip by exact Hpre.
  replace (Z.of_nat (length (pre ++ TextContent text :: post)) =? 0) with false
    by (symmetry; apply Z.eqb_neq; rewrite length_app; simpl; lia).
  unfold streq. destruct (decide (text = "")) as [Ht|Ht].
  - now rewrite (bool_decide_eq_true_2 _ Ht).
  - rewrite (bool_decide_eq_false_2 _ Ht).
    now destruct (json_Unmarshal_results text).
Qed.

(** X12. The limit that the embedding strategy of find-servers sends to
    the index is the effective limit of the request and so always positive:
    the search never leaves the limit to the default of the service. *)
Theorem embedding_search_limit_is_positive (g : Gateway) (req : CallToolRequest) :
  Forall (fun call => 0 < args_Limit (snd call))
         (toolCalls (fst (embeddingStrategy g req))) /\
  forall params,
    parseFindServers req = ([], Returned params) ->
    Forall (fun call => args_Limit (snd call) = normalizeLimit (Limit params))
           (toolCalls (fst (embeddingStrategy g req))).
Proof.
  assert (H : forall params,
            parseFindServers req = ([], Returned params) ->
            Forall (fun call => args_Limit (snd call) = normalizeLimit (Limit params))
                   (toolCalls (fst (embeddingStrategy g req)))).
  { intros p Hp.
    destruct (embeddingStrategy_trace g req) as [->|(p' & Hp' & ->)]; [constructor|].
    assert (p' = p) as -> by congruence.
    destruct (embeddingResponse_trace g p) as [->| ->]; [constructor|].
    rewrite findServersByEmbedding_discover.
    eapply Forall_impl; [apply discover_calls|]. simpl. tauto. }
  split; [|exact H].
  destruct (embeddingStrategy_trace g req) as [E|(p & Hp & _)]; [rewrite E; constructor|].
  eapply Forall_impl; [apply (H p Hp)|]. simpl. intros call ->. apply normalizeLimit_pos.
Qed.


End Discovery.

(** ** Teardown of the index client *)

(** What [Close] returns is the answer of [session.Close()] of that very
    call, and the session pointer is left as it was. *)
Lemma Close_returns_session_error (env : CloseEnv) (c : VectorDBClient) :
  snd (Close env c) = match session c with
                       | Some _ => session_Close env
                       | None => None
                       end /\
  session (fst (fst (Close env c))) = session c.
Proof.
  unfold Close.
  destruct (negb (streq (containerName c) "")); simpl;
    destruct (cmd c); simpl; destruct (session c); auto.
Qed.

(** After a call the container name and the command are cleared, so a
    later call neither stops the container nor waits for the process. *)
Lemma Close_clears_container_and_cmd (env : CloseEnv) (c : VectorDBClient) :
  containerName (fst (fst (Close env c))) = "" /\ cmd (fst (fst (Close env c))) = None.
Proof.
  unfold Close.
  destruct (streq (containerName c) "") eqn:E; simpl.
  - apply streq_true in E. destruct (cmd c) eqn:Ec; simpl; auto.
  - destruct (cmd c) eqn:Ec; simpl; auto.
Qed.

(** When the session answers no error to a later close, that call returns
    none: the errors of the stop and of the wait are logged only. *)
Lemma Close_again_without_session_error (env env' : CloseEnv) (c : VectorDBClient) :
  session_Close env' = None ->
  snd (Close env' (fst (fst (Close env c)))) = None.
Proof.
  intros H. destruct (Close_returns_session_error env' (fst (fst (Close env c)))) as [-> _].
  rewrite H. now destruct (session _).
Qed.

(** C4. [Close] called three times on a live client whose session reports
    an error on every close returns that error all three times: the second
    and third calls close the session again, because [Close] clears the
    container name and the command but never the session. *)
Theorem close_repeats_session_error :
  CloseAll [failingSessionEnv; failingSessionEnv; failingSessionEnv] liveClient
  = (mkVectorDBClient None (Some tt) "",
     [Some "connection closed"; Some "connection closed"; Some "connection closed"]).
Proof. reflexivity. Qed.

(** ** The properties on concrete catalogs, hits and requests *)

(** The end-to-end scenario: [github] ranks first for the query github,
    and the query lookup finds [weather] through its description. *)
Example keyword_scenario :
  keywordResponse asciiToLower asciiTrimSpace demoConfiguration
    (mkFindServersParams " GitHub " 0)
  = ([], Returned (mkFindServersResponse " GitHub " 1
                     [mkServerInfo "github" (Some "GitHub API integration") None None false]))
  /\
  keywordResponse asciiToLower asciiTrimSpace demoConfiguration
    (mkFindServersParams "lookup" 0)
  = ([], Returned (mkFindServersResponse "lookup" 1
                     [mkServerInfo "weather" (Some "forecast lookup") None None false])).
Proof. split; vm_compute; reflexivity. Qed.

Lemma keyword_score_is_max_weight_witness :
  "github" <> "" /\ asciiToLower "" = "" /\
  snd (scoreServer asciiToLower "github" "GitHub" (plainServer "GitHub API integration"))
  = 100.
Proof.
  split; [discriminate|]. split; [reflexivity|].
  refine (proj1 (proj2 (proj2 (keyword_score_is_max_weight asciiToLower "github" _ _))
                  "GitHub" (plainServer "GitHub API integration") _ _));
    [discriminate|reflexivity|reflexivity|reflexivity].
Defined.

Lemma keyword_matches_sorted_witness :
  Prompt (mkFindServersParams "db" 0) <> "" /\
  exists sorted,
    sortMatches (collectMatches asciiToLower "db" tieCatalog) = Some sorted /\
    StronglySorted byScore sorted.
Proof.
  split; [discriminate|].
  destruct (keyword_matches_sorted asciiToLower asciiTrimSpace tieConfiguration
              (mkFindServersParams "db" 0)) as (sorted & Hs & _ & Hsorted & _);
    [discriminate|].
  exists sorted. split; [exact Hs|exact Hsorted].
Defined.

(** C2 as stated fails: the three servers of [tieCatalog] are met in the
    order db-a, db-b, db; the query db scores them 50, 50 and 100, and the
    sort returns db, db-b, db-a, with the two ties in the reverse of the
    catalog order. *)
Lemma keyword_ties_counterexample :
  collectMatches asciiToLower (asciiToLower (asciiTrimSpace "db")) tieCatalog
  = [tieMatch "db-a" 50; tieMatch "db-b" 50; tieMatch "db" 100] /\
  rankedMatches asciiToLower asciiTrimSpace tieConfiguration (mkFindServersParams "db" 0)
  = Some [tieMatch "db" 100; tieMatch "db-b" 50; tieMatch "db-a" 50] /\
  ~ tiesKeepOrder
      (collectMatches asciiToLower (asciiToLower (asciiTrimSpace "db")) tieCatalog)
      [tieMatch "db" 100; tieMatch "db-b" 50; tieMatch "db-a" 50].
Proof.
  split; [vm_compute; reflexivity|]. split; [vm_compute; reflexivity|].
  intros H.
  destruct (H (tieMatch "db-b" 50) (tieMatch "db-a" 50) eq_refl) as (i & j & Hlt & Hi & Hj).
  { exists 1%nat, 2%nat. repeat split. lia. }
  destruct i as [|[|[|i]]]; vm_compute in Hi; try discriminate.
  destruct j as [|[|[|j]]]; vm_compute in Hj; try discriminate. lia.
Qed.

Lemma dropped_hits_are_skipped_witness :
  droppedServerHit demoGateway hitBare /\
  snd (findServersByEmbedding demoResults demoContent demoEmbedding demoSession
         demoGateway "source control" 2)
  = Returned [serverInfoOf "github" (plainServer "GitHub API integration")] /\
  droppedToolHit demoGateway hitBareTool /\
  snd (findToolsByEmbedding demoResults demoContent demoEmbedding demoSession
         demoGateway "list the issues")
  = Returned [mkToolInfo "list_issues" "List the issues" None].
Proof.
  split; [left; reflexivity|]. split.
  - refine (proj2 (proj2 (proj1 (dropped_hits_are_skipped demoResults demoContent
              demoEmbedding demoSession demoGateway [] [hitGithub] hitBare) _))
              liveClient "source control" 2 []
              [EvCallTool "search" (mkSearchArgs [] serverCollection [] 2)] _ _ _);
      [left; reflexivity|reflexivity|reflexivity|reflexivity].
  - split; [left; reflexivity|].
    refine (proj2 (proj2 (proj2 (dropped_hits_are_skipped demoResults demoContent
              demoEmbedding demoSession demoGateway [] [hitTool] hitBareTool) _))
              liveClient "list the issues" []
              [EvCallTool "search" (mkSearchArgs [] "" [serverCollection] 5)] _ _ _);
      [left; reflexivity|reflexivity|reflexivity|reflexivity].
Defined.

(** The demo index service keeps to the limit and to the collections of a
    search. *)
Lemma demoSession_contract :
  honoursLimit demoResults demoSession /\ honoursCollections demoResults demoSession.
Proof.
  split; intros args reply results Hc Hu; unfold demoSession in Hc;
    inversion Hc; subst; clear Hc; simpl in Hu;
    destruct (streq (args_CollectionName args) serverCollection) eqn:Es;
    destruct (bool_decide (args_ExcludeCollections args = [])) eqn:Ee;
    destruct (streq (args_CollectionName args) "") eqn:Et;
    destruct (bool_decide (args_ExcludeCollections args = [serverCollection])) eqn:Ex;
    destruct (2 <=? args_Limit args) eqn:E2;
    destruct (1 <=? args_Limit args) eqn:E1;
    vm_compute in Hu; inversion Hu; subst; clear Hu;
    try apply Z.leb_le in E2; try apply Z.leb_le in E1;
    try apply streq_true in Es; try apply streq_true in Et;
    try apply bool_decide_eq_true in Ee; try apply bool_decide_eq_true in Ex;
    try (intros Hpos; simpl; lia);
    repeat constructor; simpl;
    try rewrite Es; try rewrite Ee; try rewrite Ex; try rewrite Et;
    try reflexivity; try congruence; try apply not_elem_of_nil;
    try (rewrite list_elem_of_singleton; discriminate).
Defined.

Lemma surviving_hits_keep_search_order_witness :
  findServersByEmbedding demoResults demoContent demoEmbedding demoSession
    demoGateway "source control" 2
  = ([EvEmbedding "source control";
      EvCallTool "search" (mkSearchArgs [] serverCollection [] 2);
      EvLog (Logf "Warning: search result %d missing 'name' in metadata" [ArgInt 2])],
     Returned [serverInfoOf "github" (plainServer "GitHub API integration")]) /\
  exists client v hits,
    SearchVectors demoResults demoContent demoSession client v
      (Some (mkSearchOptions serverCollection [] 2))
    = ([EvCallTool "search" (mkSearchArgs v serverCollection [] 2)], Returned hits) /\
    [serverInfoOf "github" (plainServer "GitHub API integration")]
    = fst (reconcileServers demoGateway hits).
Proof.
  split; [reflexivity|].
  refine (proj2 (proj2 (proj1 (surviving_hits_keep_search_order demoResults
            demoContent demoEmbedding demoSession demoGateway [])))
            "source control" 2 _ _ _).
  reflexivity.
Defined.

Lemma find_tools_limit_is_five_witness :
  honoursLimit demoResults demoSession /\
  findToolsHandler any demoMarshal demoUnmarshalTools demoMarshalTools demoResults
    demoContent demoEmbedding demoSession demoGateway (requestFor "list the issues")
  = ([EvEmbedding "list the issues";
      EvCallTool "search" (mkSearchArgs [] "" [serverCollection] 5);
      EvLog (Logf "Warning: search result %d missing 'tool' in metadata" [ArgInt 5])],
     Returned (mkHandlerResult "tools")) /\
  exists tools,
    demoMarshalTools tools = inr "tools" /\ (length tools <= 5)%nat.
Proof.
  split; [exact (proj1 demoSession_contract)|]. split; [vm_compute; reflexivity|].
  refine (proj1 (proj2 (find_tools_limit_is_five any demoMarshal demoUnmarshalTools
            demoMarshalTools demoResults demoContent demoEmbedding demoSession
            demoGateway (requestFor "list the issues")))
            (proj1 demoSession_contract) _ (mkHandlerResult "tools") _).
  vm_compute; reflexivity.
Defined.

Lemma find_servers_respects_limit_witness :
  honoursLimit demoResults demoSession /\
  (exists params response,
     parseFindServers any demoMarshal demoUnmarshalServers (requestFor "github")
     = ([], Returned params) /\
     demoMarshalResponse response = inr "response" /\
     Z.of_nat (length (resp_servers response)) <= normalizeLimit (Limit params)) /\
  normalizeLimit 0 = 10 /\ normalizeLimit 3 = 3.
Proof.
  split; [exact (proj1 demoSession_contract)|]. split; [|split; reflexivity].
  refine (proj2 (proj2 (proj2 (find_servers_respects_limit asciiToLower asciiTrimSpace any
            demoMarshal demoUnmarshalServers demoMarshalResponse demoResults
            demoContent demoEmbedding demoSession demoGateway demoConfiguration
            (requestFor "github"))))
            (proj1 demoSession_contract) _ (mkHandlerResult "response") _).
  vm_compute; reflexivity.
Defined.

Lemma total_matches_is_servers_length_witness :
  keywordStrategy asciiToLower asciiTrimSpace any demoMarshal demoUnmarshalServers
    demoMarshalResponse tieConfiguration (requestFor "db")
  = ([], Returned (mkHandlerResult "response")) /\
  exists params response,
    parseFindServers any demoMarshal demoUnmarshalServers (requestFor "db")
    = ([], Returned params) /\
    demoMarshalResponse response = inr "response" /\
    resp_total_matches response = Z.of_nat (length (resp_servers response)) /\
    length (resp_servers response)
    = Nat.min (Z.to_nat (normalizeLimit (Limit params)))
        (length (collectMatches asciiToLower (asciiToLower (asciiTrimSpace (Prompt params)))
                   (servers tieConfiguration))).
Proof.
  split; [vm_compute; reflexivity|].
  refine (proj1 (total_matches_is_servers_length asciiToLower asciiTrimSpace any
            demoMarshal demoUnmarshalServers demoMarshalResponse demoResults
            demoContent demoEmbedding demoSession demoGateway tieConfiguration
            (requestFor "db")) [] (mkHandlerResult "response") _).
  vm_compute; reflexivity.
Defined.

Lemma empty_prompt_is_rejected_witness :
  Arguments requestWithoutPrompt = Some (AMap ∅) /\
  demoUnmarshalServers (AMap ∅) = inr (mkFindServersParams "" 0) /\
  keywordStrategy asciiToLower asciiTrimSpace any demoMarshal demoUnmarshalServers
    demoMarshalResponse demoConfiguration requestWithoutPrompt
  = ([], Failed "query parameter is required") /\
  embeddingStrategy any demoMarshal demoUnmarshalServers demoMarshalResponse
    demoResults demoContent demoEmbedding demoSession demoGateway requestWithoutPrompt
  = ([], Failed "query parameter is required") /\
  findToolsHandler any demoMarshal demoUnmarshalTools demoMarshalTools demoResults
    demoContent demoEmbedding demoSession demoGateway (requestFor "")
  = ([], Failed "prompt parameter is required") /\
  keywordStrategy asciiToLower asciiTrimSpace any demoMarshal demoUnmarshalServers
    demoMarshalResponse demoConfiguration (mkCallToolRequest None)
  = ([], Failed "missing arguments").
Proof.
  split; [reflexivity|]. split; [reflexivity|].
  pose proof (empty_prompt_is_rejected asciiToLower asciiTrimSpace any demoMarshal
                demoUnmarshalServers demoUnmarshalTools demoMarshalResponse
                demoMarshalTools demoResults demoContent demoEmbedding
                demoSession demoGateway demoConfiguration requestWithoutPrompt)
    as (_ & Hservers & _).
  destruct (Hservers (AMap ∅) (AMap ∅) (mkFindServersParams "" 0)
              eq_refl eq_refl eq_refl eq_refl) as [Hk He].
  split; [exact Hk|]. split; [exact He|].
  pose proof (empty_prompt_is_rejected asciiToLower asciiTrimSpace any demoMarshal
                demoUnmarshalServers demoUnmarshalTools demoMarshalResponse
                demoMarshalTools demoResults demoContent demoEmbedding
                demoSession demoGateway demoConfiguration (requestFor ""))
    as (_ & _ & Htools & _).
  split.
  - exact (Htools (AMap {[ "prompt" := AString "" ]}) (AMap {[ "prompt" := AString "" ]})
             (mkFindToolsParams "") eq_refl eq_refl eq_refl eq_refl).
  - exact (proj1 (proj1 (empty_prompt_is_rejected asciiToLower asciiTrimSpace any
             demoMarshal demoUnmarshalServers demoUnmarshalTools demoMarshalResponse
             demoMarshalTools demoResults demoContent demoEmbedding demoSession
             demoGateway demoConfiguration (mkCallToolRequest None)) eq_refl)).
Defined.


(** ** Start, probes and teardown of the index client *)

Lemma Close_session_unchanged (env : CloseEnv) (c : VectorDBClient) :
  session (fst (fst (Close env c))) = session c.
Proof.
  unfold Close. destruct (negb (streq (containerName c) "")); simpl;
    destruct (cmd c); reflexivity.
Qed.

(** X14. [NewVectorDBClient] replaces a dimension that is not positive by
    1536 before it builds the command line, so the container is always
    started with a positive VECTOR_DIMENSION. When the connection fails no
    client is returned; when it succeeds the client has its command and
    session set and carries the name given to the container on the command
    line, which is never empty. *)
Theorem new_client_command_and_name (env : ConnectEnv) (dataDir : string) (dimension : Z) :
  (dimension <= 0 ->
   NewVectorDBClient env dataDir dimension = NewVectorDBClient env dataDir 1536) /\
  (exists d name,
     0 < d /\ (0 < dimension -> d = dimension) /\ name <> "" /\
     fst (NewVectorDBClient env dataDir dimension) = dockerRunArgs name dataDir d /\
     "VECTOR_DIMENSION=" +:+ pretty d ∈ fst (NewVectorDBClient env dataDir dimension) /\
     forall c,
       snd (NewVectorDBClient env dataDir dimension) = inr c ->
       c = mkVectorDBClient (Some tt) (Some tt) name) /\
  (forall err,
     mcp_Connect env (fst (NewVectorDBClient env dataDir dimension)) = inl err ->
     snd (NewVectorDBClient env dataDir dimension)
     = inl (wrap "failed to connect to MCP server" err)).
Proof.
  split; [|split].
  - intros Hle. unfold NewVectorDBClient.
    rewrite (proj2 (Z.leb_le dimension 0) Hle). reflexivity.
  - exists (if dimension <=? 0 then 1536 else dimension),
           ("vector-db-" +:+ pretty (UnixNano env)).
    split; [destruct (dimension <=? 0) eqn:E; [lia|apply Z.leb_gt in E; lia]|].
    split; [intros Hpos; now rewrite (proj2 (Z.leb_gt dimension 0) Hpos)|].
    split; [discriminate|].
    unfold NewVectorDBClient.
    destruct (mcp_Connect env _) as [err|[]]; simpl;
      (split; [reflexivity|split; [unfold dockerRunArgs; in_table|]]);
      intros c H; inversion H. reflexivity.
  - intros err.
    assert (Hcmd : fst (NewVectorDBClient env dataDir dimension)
                   = dockerRunArgs ("vector-db-" +:+ pretty (UnixNano env)) dataDir
                       (if dimension <=? 0 then 1536 else dimension)).
    { unfold NewVectorDBClient. now destruct (mcp_Connect env _). }
    rewrite Hcmd. intros H. unfold NewVectorDBClient. now rewrite H.
Qed.

(** X15. Clients created at different instants of the clock get different
    container names, so the docker stop of one never names the container
    of another. *)
Theorem new_clients_have_distinct_names (env env' : ConnectEnv) (dataDir dataDir' : string)
    (dimension dimension' : Z) (c c' : VectorDBClient) :
  UnixNano env <> UnixNano env' ->
  snd (NewVectorDBClient env dataDir dimension) = inr c ->
  snd (NewVectorDBClient env' dataDir' dimension') = inr c' ->
  containerName c <> containerName c'.
Proof.
  intros Hne Hc Hc'. unfold NewVectorDBClient in *.
  destruct (mcp_Connect env _); [discriminate|].
  destruct (mcp_Connect env' _); [discriminate|].
  inversion Hc; inversion Hc'; subst. simpl. intros Heq.
  apply Hne. apply (inj pretty). now apply (inj (String.app "vector-db-")) in Heq.
Qed.

(** X16. The first [Close] of a freshly created client stops the container
    that [NewVectorDBClient] started, by the name on its command line, and
    waits for the process; it returns what closing the session returned.
    Failures of the stop and of the wait do not change that. *)
Theorem first_close_stops_the_started_container (env : ConnectEnv) (dataDir : string)
    (dimension : Z) (c : VectorDBClient) (cenv : CloseEnv) :
  snd (NewVectorDBClient env dataDir dimension) = inr c ->
  "vector-db-" +:+ pretty (UnixNano env) ∈ fst (NewVectorDBClient env dataDir dimension) /\
  Logf "Stopping container: %s" [ArgString ("vector-db-" +:+ pretty (UnixNano env))]
    ∈ snd (fst (Close cenv c)) /\
  Log "Waiting for docker run process to exit" ∈ snd (fst (Close cenv c)) /\
  snd (Close cenv c) = session_Close cenv /\
  fst (fst (Close cenv c)) = mkVectorDBClient None (Some tt) "".
Proof.
  intros Hc. unfold NewVectorDBClient in *.
  destruct (mcp_Connect env _); [discriminate|]. inversion Hc; subst. clear Hc.
  split; [simpl; unfold dockerRunArgs; in_table|].
  unfold Close. simpl.
  destruct (stopCmd_Run cenv), (cmd_Wait cenv) as [w|]; simpl;
    try destruct (negb (streq w "exec: Wait was already called")); simpl;
    repeat split; in_table.
Qed.

(** X17. After [Close] the client reports itself dead and has nothing to
    wait for, whatever the process does: [IsAlive] is false and [Wait]
    returns no error without asking the process, while [Session] still
    hands out the session as before. *)
Theorem closed_client_reports_dead (cenv : CloseEnv) (c : VectorDBClient)
    (penv : ProcessEnv) (waited : option error) :
  IsAlive penv (fst (fst (Close cenv c))) = false /\
  Wait waited (fst (fst (Close cenv c))) = None /\
  Session (fst (fst (Close cenv c))) = Session c.
Proof.
  destruct (Close_clears_container_and_cmd cenv c) as [_ Hcmd].
  unfold IsAlive, Wait, Session. rewrite Hcmd, Close_session_unchanged. repeat split.
Qed.

(** X18. A repeated [Close] leaves the client as the first one left it,
    neither stops a container nor waits for a process, and logs only its
    opening and closing line; what any [Close] returns depends on the
    session alone, never on the outcome of the stop or of the wait. *)
Theorem repeated_close_only_closes_the_session (env env' : CloseEnv) (c : VectorDBClient) :
  Close env' (fst (fst (Close env c)))
  = (fst (fst (Close env c)),
     [Log "close the DBClient"; Log "DBClient closed"],
     match session c with
     | Some _ => session_Close env'
     | None => None
     end) /\
  (session_Close env = session_Close env' -> snd (Close env c) = snd (Close env' c)).
Proof.
  split.
  - destruct (Close_clears_container_and_cmd env c) as [Hname Hcmd].
    pose proof (Close_session_unchanged env c) as Hs.
    destruct (fst (fst (Close env c))) as [cmd' session' name']. simpl in *. subst.
    unfold Close. simpl. now destruct (session c).
  - intros Heq.
    destruct (Close_returns_session_error env c) as [-> _].
    destruct (Close_returns_session_error env' c) as [-> _].
    now rewrite Heq.
Qed.

(** ** The embedding provider call *)

(** X19. [generateEmbedding] sends at most one request, and none without
    an API key: a missing key fails the call before anything is sent. Every
    request sent is a POST to the embeddings endpoint that carries the key
    as bearer token, the JSON content type, and the encoding of the text
    with the model text-embedding-3-small; a call that returns a vector has
    sent exactly one. *)
Theorem provider_request_protocol (env : OpenAI.Env) (text : string) :
  (length (fst (OpenAI.generateEmbedding env text)) <= 1)%nat /\
  (OpenAI.Getenv env "OPENAI_API_KEY" = "" ->
   OpenAI.generateEmbedding env text
   = ([], inl "OPENAI_API_KEY environment variable not set")) /\
  Forall (fun req =>
            OpenAI.Getenv env "OPENAI_API_KEY" <> "" /\
            OpenAI.Method req = "POST" /\
            OpenAI.URL req = "https://api.openai.com/v1/embeddings" /\
            OpenAI.Header req !! "Authorization"
            = Some ("Bearer " +:+ OpenAI.Getenv env "OPENAI_API_KEY") /\
            OpenAI.Header req !! "Content-Type" = Some "application/json" /\
            OpenAI.json_Marshal env (OpenAI.mkEmbeddingRequest text "text-embedding-3-small")
            = inr (OpenAI.Body req))
         (fst (OpenAI.generateEmbedding env text)) /\
  (forall v,
     snd (OpenAI.generateEmbedding env text) = inr v ->
     length (fst (OpenAI.generateEmbedding env text)) = 1%nat).
Proof.
  unfold OpenAI.generateEmbedding.
  destruct (streq (OpenAI.Getenv env "OPENAI_API_KEY") "") eqn:Ek.
  { apply streq_true in Ek. rewrite Ek. simpl.
    repeat split; [lia|constructor|discriminate]. }
  apply streq_false in Ek.
  destruct (OpenAI.json_Marshal env _) as [e|body] eqn:Em; simpl;
    [repeat split; [lia|congruence|constructor|discriminate]|].
  destruct (OpenAI.http_NewRequest env _ _ _) as [e|]; simpl;
    [repeat split; [lia|congruence|constructor|discriminate]|].
  assert (Hreq : forall r : error + list float64,
    (length (fst ([OpenAI.mkRequest "POST" OpenAI.endpoint
                     (<["Authorization" := "Bearer " +:+ OpenAI.Getenv env "OPENAI_API_KEY"]>
                        (<["Content-Type" := "application/json"]> ∅)) body], r)) <= 1)%nat /\
    Forall (fun req =>
              OpenAI.Getenv env "OPENAI_API_KEY" <> "" /\
              OpenAI.Method req = "POST" /\
              OpenAI.URL req = "https://api.openai.com/v1/embeddings" /\
              OpenAI.Header req !! "Authorization"
              = Some ("Bearer " +:+ OpenAI.Getenv env "OPENAI_API_KEY") /\
              OpenAI.Header req !! "Content-Type" = Some "application/json" /\
              (inr body : error + string) = inr (OpenAI.Body req))
           (fst ([OpenAI.mkRequest "POST" OpenAI.endpoint
                    (<["Authorization" := "Bearer " +:+ OpenAI.Getenv env "OPENAI_API_KEY"]>
                       (<["Content-Type" := "application/json"]> ∅)) body], r))).
  { intros r. simpl. split; [lia|]. constructor; [|constructor].
    simpl. split; [exact Ek|]. split; [reflexivity|]. split; [reflexivity|].
    split; [apply lookup_insert_eq|].
    split; [|reflexivity].
    rewrite lookup_insert_ne by discriminate. apply lookup_insert_eq. }
  destruct (OpenAI.client_Do env _) as [e|resp].
  { destruct (Hreq (inl (wrap "failed to make request" e))) as [H1 H2].
    repeat split; [exact H1|congruence|exact H2]. }
  destruct (negb (OpenAI.StatusCode resp =? 200)).
  { match goal with |- context [(_, ?r)] => destruct (Hreq r) as [H1 H2] end.
    repeat split; [exact H1|congruence|exact H2]. }
  destruct (OpenAI.json_Decode env _) as [e|[|first rest]];
    match goal with |- context [(_, ?r)] => destruct (Hreq r) as [H1 H2] end;
    repeat split; solve [exact H1|congruence|exact H2].
Qed.

(** X20. [generateEmbedding] returns a vector only from a response with
    status 200 whose body decodes to a data list that is not empty, and the
    vector is the embedding of the first entry: further entries are
    ignored, and an empty first embedding is returned as it is. Any other
    status fails with that status in the message, whatever the body
    holds; an empty data list fails with no embedding returned. *)
Theorem provider_response_handling (env : OpenAI.Env) (text : string) :
  (forall v,
     snd (OpenAI.generateEmbedding env text) = inr v ->
     exists req resp first rest,
       fst (OpenAI.generateEmbedding env text) = [req] /\
       OpenAI.client_Do env req = inr resp /\
       OpenAI.StatusCode resp = 200 /\
       OpenAI.json_Decode env (OpenAI.ResponseBody resp) = inr (first :: rest) /\
       v = OpenAI.Embedding first) /\
  (forall req resp,
     fst (OpenAI.generateEmbedding env text) = [req] ->
     OpenAI.client_Do env req = inr resp ->
     (OpenAI.StatusCode resp <> 200 ->
      snd (OpenAI.generateEmbedding env text)
      = inl ("API returned status " +:+ pretty (OpenAI.StatusCode resp))) /\
     (OpenAI.StatusCode resp = 200 ->
      snd (OpenAI.generateEmbedding env text)
      = match OpenAI.json_Decode env (OpenAI.ResponseBody resp) with
        | inl err => inl (wrap "failed to decode response" err)
        | inr [] => inl "no embedding returned"
        | inr (first :: _) => inr (OpenAI.Embedding first)
        end)).
Proof.
  unfold OpenAI.generateEmbedding.
  destruct (streq (OpenAI.Getenv env "OPENAI_API_KEY") "");
    [split; [discriminate|intros; discriminate]|].
  destruct (OpenAI.json_Marshal env _) as [e|body];
    [split; [discriminate|intros; discriminate]|].
  destruct (OpenAI.http_NewRequest env _ _ _) as [e|];
    [split; [discriminate|intros; discriminate]|].
  set (req0 := OpenAI.mkRequest _ _ _ _).
  destruct (OpenAI.client_Do env req0) as [e|resp] eqn:Ed.
  { split; [discriminate|]. simpl. intros req resp' Hreq Hdo.
    inversion Hreq; subst. congruence. }
  destruct (OpenAI.StatusCode resp =? 200) eqn:Es; simpl.
  - apply Z.eqb_eq in Es.
    destruct (OpenAI.json_Decode env (OpenAI.ResponseBody resp)) as [e|[|first rest]] eqn:Ej;
      simpl; (split; [try discriminate|]).
    + intros req resp' Hreq Hdo. inversion Hreq; subst.
      assert (resp' = resp) as -> by congruence. rewrite Ej. split; [congruence|reflexivity].
    + intros req resp' Hreq Hdo. inversion Hreq; subst.
      assert (resp' = resp) as -> by congruence. rewrite Ej. split; [congruence|reflexivity].
    + intros v Hv. inversion Hv. exists req0, resp, first, rest. repeat split; assumption.
    + intros req resp' Hreq Hdo. inversion Hreq; subst.
      assert (resp' = resp) as -> by congruence. rewrite Ej. split; [congruence|reflexivity].
  - apply Z.eqb_neq in Es. split; [discriminate|].
    intros req resp' Hreq Hdo. inversion Hreq; subst.
    assert (resp' = resp) as -> by congruence. split; [reflexivity|congruence].
Qed.

(** ** The provider call inside the discovery handlers *)

Section ProviderInDiscovery.

Variable Bytes : Type.
Variable json_Marshal : any -> error + Bytes.
Variable json_Unmarshal_servers : Bytes -> error + FindServersParams.
Variable json_Unmarshal_tools : Bytes -> error + FindToolsParams.
Variable json_Marshal_response : FindServersResponse -> error + string.
Variable json_MarshalIndent_tools : list ToolInfo -> error + string.
Variable json_Unmarshal_results : string -> error + list SearchResult.
Variable fmt_Content : list Content -> string.
Variable session_CallTool : string -> SearchArgs -> error + CallToolResult.

(** X21. When the embedding provider fails, an embedding discovery call
    stops there: find-servers and find-tools return the error of the
    provider under the prefixes of the two functions it passed through,
    and nothing is sent to the index. Without an API key that error is the
    missing-key message and not even the provider is contacted. *)
Theorem provider_failure_stops_discovery (env : OpenAI.Env) (g : Gateway)
    (req : CallToolRequest) (prompt : string) (err : error) :
  embeddingsClient g <> None ->
  prompt <> "" ->
  snd (OpenAI.generateEmbedding env prompt) = inl err ->
  (forall limit,
     parseFindServers Bytes json_Marshal json_Unmarshal_servers req
     = ([], Returned (mkFindServersParams prompt limit)) ->
     embeddingStrategy Bytes json_Marshal json_Unmarshal_servers json_Marshal_response
       json_Unmarshal_results fmt_Content
       (fun text => snd (OpenAI.generateEmbedding env text)) session_CallTool g req
     = ([EvEmbedding prompt],
        Failed ("failed to find servers: failed to generate embedding: " +:+ err))) /\
  (parseFindTools Bytes json_Marshal json_Unmarshal_tools req
   = ([], Returned (mkFindToolsParams prompt)) ->
   findToolsHandler Bytes json_Marshal json_Unmarshal_tools json_MarshalIndent_tools
     json_Unmarshal_results fmt_Content
     (fun text => snd (OpenAI.generateEmbedding env text)) session_CallTool g req
   = ([EvEmbedding prompt],
      Failed ("failed to find tools: failed to generate embedding: " +:+ err))) /\
  (OpenAI.Getenv env "OPENAI_API_KEY" = "" ->
   err = "OPENAI_API_KEY environment variable not set" /\
   fst (OpenAI.generateEmbedding env prompt) = []).
Proof.
  intros Hclient Hprompt Herr.
  destruct (embeddingsClient g) as [client|] eqn:Ec; [|congruence].
  apply streq_false in Hprompt.
  split; [|split].
  - intros limit Hp. unfold embeddingStrategy. rewrite Hp. simpl.
    unfold embeddingResponse. simpl. rewrite Hprompt.
    unfold findServersByEmbedding, embed. rewrite Ec. simpl. rewrite Herr. reflexivity.
  - intros Hp. unfold findToolsHandler. rewrite Hp. simpl.
    unfold findToolsResponse. simpl. rewrite Hprompt.
    unfold findToolsByEmbedding, embed. rewrite Ec. simpl. rewrite Herr. reflexivity.
  - intros Hkey. unfold OpenAI.generateEmbedding in *. rewrite Hkey in *. simpl in *.
    split; [congruence|reflexivity].
Qed.

End ProviderInDiscovery.

(** ** The further properties on concrete inputs *)

Lemma keyword_score_in_table_witness :
  tieMatch "db" 100 ∈ collectMatches asciiToLower "db" tieCatalog /\
  Score (tieMatch "db" 100) ∈ weightTable.
Proof.
  assert (Hin : tieMatch "db" 100 ∈ collectMatches asciiToLower "db" tieCatalog).
  { assert (E : collectMatches asciiToLower "db" tieCatalog
                = [tieMatch "db-a" 50; tieMatch "db-b" 50; tieMatch "db" 100])
      by (vm_compute; reflexivity).
    rewrite E. in_table. }
  split; [exact Hin|].
  exact (proj1 (keyword_score_in_table asciiToLower "db" tieCatalog (tieMatch "db" 100) Hin)).
Defined.

Lemma sort_puts_first_best_in_front_witness :
  Forall (fun a => Score a < Score (tieMatch "best" 90)) sortDemoPre /\
  Forall (fun a => Score a <= Score (tieMatch "best" 90)) sortDemoPost /\
  exists rest,
    sortMatches (sortDemoPre ++ tieMatch "best" 90 :: sortDemoPost)
    = Some (tieMatch "best" 90 :: rest).
Proof.
  assert (Hpre : Forall (fun a => Score a < Score (tieMatch "best" 90)) sortDemoPre)
    by (repeat constructor).
  assert (Hpost : Forall (fun a => Score a <= Score (tieMatch "best" 90)) sortDemoPost)
    by (repeat constructor; simpl; discriminate).
  split; [exact Hpre|]. split; [exact Hpost|].
  destruct (sort_puts_first_best_in_front sortDemoPre sortDemoPost (tieMatch "best" 90)
              Hpre Hpost) as (rest & Hsort & _).
  exists rest. exact Hsort.
Defined.

Lemma demoCatalog_names_NoDup : NoDup (map fst (servers demoConfiguration)).
Proof.
  apply NoDup_cons_2; [|apply NoDup_singleton].
  rewrite list_elem_of_singleton. discriminate.
Defined.

Lemma keyword_response_without_duplicates_witness :
  NoDup (map fst (servers demoConfiguration)) /\
  keywordResponse asciiToLower asciiTrimSpace demoConfiguration
    (mkFindServersParams "lookup" 0)
  = ([], Returned (mkFindServersResponse "lookup" 1
                     [mkServerInfo "weather" (Some "forecast lookup") None None false])) /\
  NoDup (map info_name [mkServerInfo "weather" (Some "forecast lookup") None None false]).
Proof.
  split; [exact demoCatalog_names_NoDup|].
  assert (Hk : keywordResponse asciiToLower asciiTrimSpace demoConfiguration
                 (mkFindServersParams "lookup" 0)
               = ([], Returned (mkFindServersResponse "lookup" 1
                     [mkServerInfo "weather" (Some "forecast lookup") None None false])))
    by (vm_compute; reflexivity).
  split; [exact Hk|].
  exact (proj1 (keyword_response_without_duplicates asciiToLower asciiTrimSpace
                  demoConfiguration (mkFindServersParams "lookup" 0) [] _
                  demoCatalog_names_NoDup Hk)).
Defined.

Lemma keyword_larger_limit_extends_witness :
  normalizeLimit 1 <= normalizeLimit 2 /\
  [mkServerInfo "db" None None None false]
  `prefix_of` [mkServerInfo "db" None None None false;
               mkServerInfo "db-b" None None None false].
Proof.
  assert (Hle : normalizeLimit 1 <= normalizeLimit 2) by discriminate.
  split; [exact Hle|].
  refine (proj1 (keyword_larger_limit_extends asciiToLower asciiTrimSpace tieConfiguration
                   (mkFindServersParams "db" 1) (mkFindServersParams "db" 2) [] []
                   (mkFindServersResponse "db" 1 [mkServerInfo "db" None None None false])
                   (mkFindServersResponse "db" 2
                      [mkServerInfo "db" None None None false;
                       mkServerInfo "db-b" None None None false])
                   eq_refl Hle _ _));
    vm_compute; reflexivity.
Defined.

Lemma search_reads_first_text_content_witness :
  result_Content mixedReply = [OtherContent] ++ TextContent "s1" :: [TextContent "s2"] /\
  SearchVectors demoResults demoContent mixedSession liveClient []
    (Some (mkSearchOptions serverCollection [] 2))
  = ([EvCallTool "search" (mkSearchArgs [] serverCollection [] 2)], Returned [hitGithub]).
Proof.
  split; [reflexivity|].
  refine (search_reads_first_text_content demoResults demoContent mixedSession liveClient []
            (mkSearchOptions serverCollection [] 2) mixedReply [OtherContent]
            [TextContent "s2"] "s1" _ eq_refl eq_refl eq_refl _).
  - discriminate.
  - repeat constructor.
Defined.

Lemma new_clients_have_distinct_names_witness :
  UnixNano (demoConnectEnv 1) <> UnixNano (demoConnectEnv 2) /\
  containerName (mkVectorDBClient (Some tt) (Some tt) "vector-db-1")
  <> containerName (mkVectorDBClient (Some tt) (Some tt) "vector-db-2").
Proof.
  assert (Hne : UnixNano (demoConnectEnv 1) <> UnixNano (demoConnectEnv 2)) by discriminate.
  split; [exact Hne|].
  refine (new_clients_have_distinct_names (demoConnectEnv 1) (demoConnectEnv 2)
            "/data" "/data" 0 768 _ _ Hne _ _); vm_compute; reflexivity.
Defined.

Lemma first_close_stops_the_started_container_witness :
  snd (NewVectorDBClient (demoConnectEnv 1) "/data" 0) = inr liveClient /\
  Logf "Stopping container: %s" [ArgString "vector-db-1"]
    ∈ snd (fst (Close failingSessionEnv liveClient)) /\
  snd (Close failingSessionEnv liveClient) = Some "connection closed".
Proof.
  assert (Hc : snd (NewVectorDBClient (demoConnectEnv 1) "/data" 0) = inr liveClient)
    by (vm_compute; reflexivity).
  split; [exact Hc|].
  destruct (first_close_stops_the_started_container (demoConnectEnv 1) "/data" 0 liveClient
              failingSessionEnv Hc) as (_ & Hstop & _ & Herr & _).
  split; [exact Hstop|exact Herr].
Defined.

Lemma provider_failure_stops_discovery_witness :
  embeddingsClient demoGateway <> None /\
  snd (OpenAI.generateEmbedding keylessProvider "github")
  = inl "OPENAI_API_KEY environment variable not set" /\
  embeddingStrategy any demoMarshal demoUnmarshalServers demoMarshalResponse demoResults
    demoContent (fun text => snd (OpenAI.generateEmbedding keylessProvider text))
    demoSession demoGateway (requestFor "github")
  = ([EvEmbedding "github"],
     Failed "failed to find servers: failed to generate embedding: OPENAI_API_KEY environment variable not set").
Proof.
  assert (Hc : embeddingsClient demoGateway <> None) by discriminate.
  assert (He : snd (OpenAI.generateEmbedding keylessProvider "github")
               = inl "OPENAI_API_KEY environment variable not set") by reflexivity.
  split; [exact Hc|]. split; [exact He|].
  refine (proj1 (provider_failure_stops_discovery any demoMarshal demoUnmarshalServers
                   demoUnmarshalTools demoMarshalResponse demoMarshalTools demoResults
                   demoContent demoSession keylessProvider demoGateway
                   (requestFor "github") "github" _ Hc _ He) 0 _).
  - discriminate.
  - vm_compute; reflexivity.
Defined.

(** A provider that answers two embeddings: the first one is returned,
    after one request with the bearer key. *)
Example provider_scenario :
  OpenAI.generateEmbedding demoProvider "list the issues"
  = ([OpenAI.mkRequest "POST" "https://api.openai.com/v1/embeddings"
        (<["Authorization" := "Bearer sk-demo"]>
           (<["Content-Type" := "application/json"]> ∅))
        "list the issues"],
     inr [1; 2]).
Proof. reflexivity. Qed.

(** The dimensions of the test table of the client: zero and a negative
    dimension start the container as 1536 does, 768 is kept. *)
Example dimension_scenario :
  fst (NewVectorDBClient (demoConnectEnv 1) "/data" 0)
  = fst (NewVectorDBClient (demoConnectEnv 1) "/data" 1536) /\
  fst (NewVectorDBClient (demoConnectEnv 1) "/data" (-1))
  = fst (NewVectorDBClient (demoConnectEnv 1) "/data" 1536) /\
  "VECTOR_DIMENSION=768" ∈ fst (NewVectorDBClient (demoConnectEnv 1) "/data" 768) /\
  snd (NewVectorDBClient refusingConnectEnv "/data" 768)
  = inl "failed to connect to MCP server: exec: docker: executable file not found".
Proof. repeat split; vm_compute; in_table. Qed.
